(** * DuMeshTransformer: command queue and material identity resolver

    A shallow embedding of [src/lib/DuMeshTransformer.ts].

    The class is a mutable object whose methods may throw.  Methods that
    only read are embedded as functions of the receiver [this]; methods
    that write a field, call a queued command or touch the file system
    are embedded in a small monad that threads the receiver, collects
    the calls made to the outside (queued command functions, the
    document writer) and carries a normal or an abrupt completion.

    Modelling conventions:
    - a JavaScript object used as a dictionary (a material's extras, the
      catalogue's [items]) is a [gmap] of its own properties, keyed by
      strings; a read [items[key]] also finds what a plain object
      inherits from [Object.prototype];
    - values are taken at the types the TypeScript source declares or
      casts them to: [getExtras()['item_id'] as string] is read as a
      string or [undefined];
    - [undefined] and [null] are [None];
    - an [async] method is embedded as its sequential run, each [await]
      running the awaited call to completion; a rejected promise is an
      abrupt completion. *)

From Stdlib Require Import String List ZArith.
From stdpp Require Import base option list strings gmap.

Set Warnings "-register-all".

(** ** JavaScript values *)

(** The values a caller may hand to [queueTransform] ([...args: any[]]). *)
Inductive any : Type :=
| AUndefined
| ANull
| ABoolean (b : bool)
| ANumber (z : Z)
| AString (s : string)
| AArray (elements : list any).

(** Truthiness of a string: every string but the empty one. *)
Definition truthy_string (s : string) : bool := negb (String.eqb s "").

(** Truthiness of a string that may be [undefined] or [null]. *)
Definition truthy (v : option string) : bool :=
  match v with
  | Some s => truthy_string s
  | None => false
  end.

(** [a || b] with [a] a string or [undefined] and [b] a string. *)
Definition or_string (a : option string) (b : string) : string :=
  match a with
  | Some s => if truthy_string s then s else b
  | None => b
  end.

(** [a || b] with [a] and [b] strings or [undefined]. *)
Definition or_undefined (a b : option string) : option string :=
  if truthy a then a else b.

(** The property key a string or [undefined] stands for in [object[key]]. *)
Definition property_key (key : option string) : string :=
  match key with
  | Some s => s
  | None => "undefined"
  end.

(** [a || null] with [a] an object or [undefined]: objects are truthy. *)
Definition or_null {A : Type} (a : option A) : option A :=
  match a with
  | Some x => Some x
  | None => None
  end.

(** ** Data model *)

(** Modelled from the spec: the type declarations of [./types] are not
    part of the sources at hand.  The spec gives a material definition as
    [{ id, title, attributes }]; the class reads [title] only. *)
Record MaterialDefinition : Type := {
  id : string;
  title : string;
  attributes : gmap string any;
}.

(** Modelled from the spec: [MaterialDefinitions] is the catalogue
    [{ items: { <itemId>: MaterialDefinition } }]. *)
Record MaterialDefinitions : Type := {
  items : gmap string MaterialDefinition;
}.

(** The names of the members of [Object.prototype] (ECMAScript, with its
    annex B): what [object[key]] finds on a plain object that has no own
    property [key]. *)
Definition Object_prototype_names : list string :=
  ["constructor"; "__defineGetter__"; "__defineSetter__"; "hasOwnProperty";
   "__lookupGetter__"; "__lookupSetter__"; "isPrototypeOf";
   "propertyIsEnumerable"; "toString"; "valueOf"; "__proto__";
   "toLocaleString"].

Definition inherited (key : string) : bool :=
  existsb (String.eqb key) Object_prototype_names.

(** What a read of the catalogue, [items[itemId]], yields when it yields
    something: an entry of the catalogue, or the member of
    [Object.prototype] of that name (a function, or [Object.prototype]
    itself for [__proto__]), which the source takes for a
    [MaterialDefinition]. *)
Inductive found : Type :=
| Entry (definition : MaterialDefinition)
| Inherited (member : string).

(** [items[itemId]]: the own property, else what is inherited. *)
Definition get_item (items : gmap string MaterialDefinition)
    (itemId : string) : option found :=
  match items !! itemId with
  | Some definition => Some (Entry definition)
  | None => if inherited itemId then Some (Inherited itemId) else None
  end.

(** [itemMaterial.title]: the title of an entry; the members of
    [Object.prototype] have no property [title]. *)
Definition title_of (itemMaterial : found) : option string :=
  match itemMaterial with
  | Entry definition => Some (title definition)
  | Inherited _ => None
  end.

(** A glTF material, as far as the class looks at it: its display name
    (a string, or [undefined] once [setName(undefined)] was called) and
    its extras. *)
Record Material : Type := {
  getName : option string;
  getExtras : gmap string string;
}.

Definition setName (material : Material) (name : option string) : Material :=
  {| getName := name; getExtras := getExtras material |}.

Definition setExtras (material : Material) (extras : gmap string string)
  : Material :=
  {| getName := getName material; getExtras := extras |}.

Record Root : Type := { listMaterials : list Material }.

Record Document : Type := { getRoot : Root }.

(** [MaterialPair]: the pair holds the material as read at the time of
    the call, and what the catalogue read yielded. *)
Record MaterialPair : Type := {
  material : Material;
  gameMaterial : found;
}.

(** A queued command: the function and the arguments stored with it.
    [F] is the type of the command functions, which live outside the
    class. *)
Record ProcessingQueueCommand (F : Type) : Type := {
  fn : F;
  args : list any;
}.
Arguments fn {F} _.
Arguments args {F} _.

(** The fields of a [DuMeshTransformer]. *)
Record DuMeshTransformer (F : Type) : Type := {
  pendingCommands : list (ProcessingQueueCommand F);
  gameInstallationPath : option string;
  gltfDocument : Document;
  materialDefinitions : MaterialDefinitions;
}.
Arguments pendingCommands {F} _.
Arguments gameInstallationPath {F} _.
Arguments gltfDocument {F} _.
Arguments materialDefinitions {F} _.

Definition set_pendingCommands {F} (this : DuMeshTransformer F)
    (q : list (ProcessingQueueCommand F)) : DuMeshTransformer F :=
  {| pendingCommands := q;
     gameInstallationPath := gameInstallationPath this;
     gltfDocument := gltfDocument this;
     materialDefinitions := materialDefinitions this |}.

Definition set_gameInstallationPath {F} (this : DuMeshTransformer F)
    (p : option string) : DuMeshTransformer F :=
  {| pendingCommands := pendingCommands this;
     gameInstallationPath := p;
     gltfDocument := gltfDocument this;
     materialDefinitions := materialDefinitions this |}.

Definition set_gltfDocument {F} (this : DuMeshTransformer F)
    (d : Document) : DuMeshTransformer F :=
  {| pendingCommands := pendingCommands this;
     gameInstallationPath := gameInstallationPath this;
     gltfDocument := d;
     materialDefinitions := materialDefinitions this |}.

(** The first argument of every command call:
    [{ document: this.gltfDocument, transformer: this }]. *)
Record context (F : Type) : Type := {
  document : Document;
  transformer : DuMeshTransformer F;
}.
Arguments document {F} _.
Arguments transformer {F} _.

(** An actual argument of a command call: the context object or a value. *)
Inductive argument (F : Type) : Type :=
| ArgContext (ctx : context F)
| ArgValue (v : any).
Arguments ArgContext {F} _.
Arguments ArgValue {F} _.

(** What the class does to the outside: it calls a command function (on
    the receiver as it is at the time of the call), creates a directory,
    has a document written. *)
Inductive event (F : Type) : Type :=
| Invoked (f : F) (this : DuMeshTransformer F) (arguments : list (argument F))
| Mkdir (dir : string)
| Written (file : string) (doc : Document).
Arguments Invoked {F} _ _ _.
Arguments Mkdir {F} _.
Arguments Written {F} _ _.

(** ** Completions and the method monad *)

Inductive completion (A : Type) : Type :=
| Normal (a : A)
| Throw (message : string).
Arguments Normal {A} _.
Arguments Throw {A} _.

Definition M (F A : Type) : Type :=
  DuMeshTransformer F -> list (event F) * DuMeshTransformer F * completion A.

Definition ret {F A} (a : A) : M F A :=
  fun this => ([], this, Normal a).

Definition throw {F A} (message : string) : M F A :=
  fun this => ([], this, Throw message).

Definition bind {F A B} (m : M F A) (k : A -> M F B) : M F B :=
  fun this =>
    match m this with
    | (log, this', Normal a) =>
        match k a this' with
        | (log', this'', r) => (log ++ log', this'', r)
        end
    | (log, this', Throw e) => (log, this', Throw e)
    end.

Definition get_this {F} : M F (DuMeshTransformer F) :=
  fun this => ([], this, Normal this).

Definition put_this {F} (this' : DuMeshTransformer F) : M F unit :=
  fun _ => ([], this', Normal tt).

Notation "'do' x <- m ; k" := (bind m (fun x => k))
  (at level 10, x name, m at level 100, k at level 200,
   format "'[v' 'do'  x  <-  m ; '/' k ']'").
Notation "'run' m ; k" := (bind m (fun _ => k))
  (at level 10, m at level 100, k at level 200,
   format "'[v' 'run'  m ; '/' k ']'").

(** [for (const x of xs) { await body x }] *)
Fixpoint for_of {F A} (xs : list A) (body : A -> M F unit) : M F unit :=
  match xs with
  | [] => ret tt
  | x :: rest => run body x; for_of rest body
  end.

(** The parts of a run. *)
Definition log_of {F A} (r : list (event F) * DuMeshTransformer F * completion A)
  : list (event F) := r.1.1.
Definition this_of {F A} (r : list (event F) * DuMeshTransformer F * completion A)
  : DuMeshTransformer F := r.1.2.
Definition completion_of {F A}
    (r : list (event F) * DuMeshTransformer F * completion A)
  : completion A := r.2.

(** ** The class *)

Section Class.

(** The command functions and what calling one does to the receiver:
    [call f this arguments] is the receiver after the call and the
    completion of the (awaited) call. *)
Context {F : Type}.
Variable call :
  F -> DuMeshTransformer F -> list (argument F) ->
  DuMeshTransformer F * completion any.

(** [import BaseColorsTransform from './commands/BaseColorsTransform'] *)
Variable BaseColorsTransform : F.

(** The platform: [os.platform()], [env.ProgramData], [existsSync],
    the functions of [path], [fs.promises.mkdir] and the writer of
    [NodeIO]. *)
Variable platform : string.
Variable env_ProgramData : option string.
Variable fileExists : string -> bool.
Variable path_join : list string -> string.
Variable path_dirname : string -> string.
Variable path_basename : string -> string -> string.
Variable path_extname : string -> string.
Variable fs_mkdir : string -> completion unit.
Variable io_write : string -> Document -> completion unit.

(** *** Internal API *)

(** [command.fn.apply(this, arguments)], awaited. *)
Definition apply (f : F) (arguments : list (argument F)) : M F any :=
  fun this =>
    match call f this arguments with
    | (this', r) => ([Invoked f this arguments], this', r)
    end.

(** [private queue(command, ...args)]: the rest parameter [args] is the
    list of the arguments after [command]. *)
Definition queue (command : F) (args : list any)
  : M F (DuMeshTransformer F) :=
  do this <- get_this;
  run put_this
    (set_pendingCommands this
       (pendingCommands this ++ [{| fn := command; args := args |}]));
  get_this.

(** [public queueTransform(command, ...args)]: the rest parameter [args]
    is passed on as it is, [this.queue(command, args)], one argument
    that holds the array. *)
Definition queueTransform (command : F) (args : list any)
  : M F (DuMeshTransformer F) :=
  queue command [AArray args].

Definition processQueue : M F unit :=
  do this <- get_this;
  let queue := pendingCommands this in
  run put_this (set_pendingCommands this []);
  for_of queue (fun command =>
    do this <- get_this;
    run apply (fn command)
      (ArgContext {| document := gltfDocument this; transformer := this |}
         :: map ArgValue (args command));
    ret tt).

(** *** Public API *)

Definition getMaterialDefinitions (this : DuMeshTransformer F)
  : MaterialDefinitions :=
  materialDefinitions this.

Definition getGameItemIdFromGltfMaterial (material : Material)
  : option string :=
  or_undefined (getExtras material !! "item_id") (getName material).

Definition getGameMaterialFromItemId (this : DuMeshTransformer F)
    (itemId : string) : option found :=
  or_null (get_item (items (getMaterialDefinitions this)) itemId).

(** The item id is used as a property key: [undefined] reads the
    property ["undefined"]. *)
Definition getGameMaterialFromGltfMaterial (this : DuMeshTransformer F)
    (material : Material) : option found :=
  getGameMaterialFromItemId this
    (property_key (getGameItemIdFromGltfMaterial material)).

(** [!!pair] *)
Definition not_not {A} (pair : option A) : bool :=
  match pair with Some _ => true | None => false end.

(** [... as MaterialPair[]]: the elements that are pairs. *)
Definition as_pairs (l : list (option MaterialPair)) : list MaterialPair :=
  flat_map (fun pair => match pair with Some p => [p] | None => [] end) l.

Definition getGltfMaterialsWithGameMaterials (this : DuMeshTransformer F)
  : list MaterialPair :=
  as_pairs
    (List.filter (fun pair => not_not pair)
       (map
          (fun material =>
             let gameMaterial :=
               getGameMaterialFromGltfMaterial this material in
             match gameMaterial with
             | Some gameMaterial =>
                 Some {| material := material; gameMaterial := gameMaterial |}
             | None => None
             end)
          (listMaterials (getRoot (gltfDocument this))))).

Definition isGameInstallationDirectorySet (this : DuMeshTransformer F)
  : bool :=
  truthy (gameInstallationPath this).

Definition setGameInstallationDirectory (directory : string)
  : M F (DuMeshTransformer F) :=
  if negb (fileExists (path_join [directory; "Game"; "data"]))
  then throw ("Invalid game directory: " +:+ directory)
  else
    do this <- get_this;
    run put_this (set_gameInstallationPath this (Some directory));
    get_this.

(** [path.join(this.gameInstallationPath!, ...)]: [path.join] throws a
    [TypeError] on an argument that is not a string. *)
Definition getDataDirectory : M F (option string) :=
  do this <- get_this;
  if isGameInstallationDirectorySet this
  then
    match gameInstallationPath this with
    | Some p => ret (Some (path_join [p; "Game"; "data"]))
    | None => throw "TypeError: the path argument must be of type string"
    end
  else ret None.

Definition mkdir (dir : string) : M F unit :=
  fun this => ([Mkdir dir], this, fs_mkdir dir).

Definition write (file : string) (doc : Document) : M F unit :=
  fun this => ([Written file doc], this, io_write file doc).

Definition saveToFile (file : string) (saveAsJson : bool) : M F unit :=
  run processQueue;
  let dir := path_dirname file in
  let basename := path_basename file (path_extname file) in
  if saveAsJson
  then
    let finaldir := path_join [dir; basename] in
    run (if negb (fileExists finaldir) then mkdir finaldir else ret tt);
    do this <- get_this;
    write (path_join [finaldir; basename +:+ ".gltf"]) (gltfDocument this)
  else
    do this <- get_this;
    write (path_join [dir; basename +:+ ".glb"]) (gltfDocument this).

(** *** Transforms *)

Definition withBaseColors : M F (DuMeshTransformer F) :=
  queue BaseColorsTransform [].

(** *** Constructor *)

(** The materials are objects of the document, reached by reference:
    a reference is the material's position in [listMaterials()]. *)
Definition material_at (index : nat) : M F Material :=
  do this <- get_this;
  match listMaterials (getRoot (gltfDocument this)) !! index with
  | Some material => ret material
  | None => throw "TypeError: no such material"
  end.

Definition update_material (index : nat) (f : Material -> Material)
  : M F unit :=
  do this <- get_this;
  put_this
    (set_gltfDocument this
       {| getRoot :=
            {| listMaterials :=
                 alter f index (listMaterials (getRoot (gltfDocument this)))
            |} |}).

(** The body of the [forEach] callback, for the material at [index].
    The test [itemId && itemMaterial] passes when the item id is a
    non-empty string and the catalogue read yielded something. *)
Definition preprocess_material (index : nat) : M F unit :=
  do material <- material_at index;
  do this <- get_this;
  let itemId := getGameItemIdFromGltfMaterial material in
  let itemMaterial :=
    if truthy itemId
    then getGameMaterialFromItemId this (property_key itemId)
    else None in
  match itemId, itemMaterial with
  | Some itemId, Some itemMaterial =>
      if truthy_string itemId
      then
        run update_material index
              (fun m => setName m (title_of itemMaterial));
        update_material index
          (fun m => setExtras m (<["item_id" := itemId]> (getExtras m)))
      else ret tt
  | _, _ => ret tt
  end.

(** [gltfDocument.getRoot().listMaterials().forEach(...)] *)
Definition preprocess_materials : M F unit :=
  do this <- get_this;
  for_of (seq 0 (length (listMaterials (getRoot (gltfDocument this)))))
    preprocess_material.

(** The body of the constructor, run on the fresh object. *)
Definition constructor_body : M F unit :=
  run (if String.eqb platform "win32"
       then
         let defaultGameInstall :=
           path_join [or_string env_ProgramData "C:\ProgramData";
                      "Dual Universe"] in
         if fileExists defaultGameInstall
            && fileExists (path_join [defaultGameInstall; "Game"; "data"])
         then run setGameInstallationDirectory defaultGameInstall; ret tt
         else ret tt
       else ret tt);
  preprocess_materials.

(** [new DuMeshTransformer(gltfDocument, materialDefinitions)]: the
    field initialisers, then the body. *)
Definition constructor (gltfDocument : Document)
    (materialDefinitions : MaterialDefinitions)
  : list (event F) * DuMeshTransformer F * completion unit :=
  constructor_body
    {| pendingCommands := [];
       gameInstallationPath := None;
       gltfDocument := gltfDocument;
       materialDefinitions := materialDefinitions |}.

End Class.

(** ** The command queue *)

Section Queue.

Context {F : Type}.
Variable call :
  F -> DuMeshTransformer F -> list (argument F) ->
  DuMeshTransformer F * completion any.

(** The argument list [[{ document, transformer }, ...command.args]]
    built on the receiver [this]. *)
Definition actuals (this : DuMeshTransformer F)
    (command : ProcessingQueueCommand F) : list (argument F) :=
  ArgContext {| document := gltfDocument this; transformer := this |}
    :: map ArgValue (args command).

(** The call of [command] on the receiver [this]. *)
Definition invocation (this : DuMeshTransformer F)
    (command : ProcessingQueueCommand F) : event F :=
  Invoked (fn command) this (actuals this command).

(** One round of the loop of [processQueue]. *)
Definition call_command (command : ProcessingQueueCommand F) : M F unit :=
  do this <- get_this;
  run apply call (fn command) (actuals this command);
  ret tt.

(** A run of the loop, as a relation: [drains this queue log this' r]
    when the loop over [queue], started on [this], makes the calls
    [log] and ends on [this'] with completion [r]. *)
Inductive drains :
  DuMeshTransformer F -> list (ProcessingQueueCommand F) ->
  list (event F) -> DuMeshTransformer F -> completion unit -> Prop :=
| drains_done this :
    drains this [] [] this (Normal tt)
| drains_next this command rest this1 v log this' r :
    call (fn command) this (actuals this command) = (this1, Normal v) ->
    drains this1 rest log this' r ->
    drains this (command :: rest) (invocation this command :: log) this' r
| drains_stop this command rest this1 e :
    call (fn command) this (actuals this command) = (this1, Throw e) ->
    drains this (command :: rest) [invocation this command] this1 (Throw e).

(** What a call left on the pending queue beyond what it found there. *)
Definition enqueued_by (e : event F) : list (ProcessingQueueCommand F) :=
  match e with
  | Invoked f this arguments =>
      drop (length (pendingCommands this))
        (pendingCommands (call f this arguments).1)
  | _ => []
  end.

(** The receiver on which a call was made. *)
Definition receiver (e : event F) : option (DuMeshTransformer F) :=
  match e with
  | Invoked _ this _ => Some this
  | _ => None
  end.

(** The calls of the commands of [queue], made in turn: the first on
    [this], each next one on the session the call before it left. *)
Fixpoint calls_in_turn (queue : list (ProcessingQueueCommand F))
    (this : DuMeshTransformer F) : list (event F) :=
  match queue with
  | [] => []
  | command :: rest =>
      invocation this command
        :: calls_in_turn rest
             (call (fn command) this (actuals this command)).1
  end.

(** The session the commands of [queue] leave when they are called in
    turn from [this] and each returns; [None] when one of them throws. *)
Fixpoint returns_in_turn (queue : list (ProcessingQueueCommand F))
    (this : DuMeshTransformer F) : option (DuMeshTransformer F) :=
  match queue with
  | [] => Some this
  | command :: rest =>
      match call (fn command) this (actuals this command) with
      | (this', Normal _) => returns_in_turn rest this'
      | (_, Throw _) => None
      end
  end.

(** A logged call left on the pending queue what it found there, and
    then what it queued. *)
Definition appends_only (e : event F) : Prop :=
  match e with
  | Invoked f this arguments =>
      pendingCommands this `prefix_of`
        pendingCommands (call f this arguments).1
  | _ => True
  end.

(** A command function reaches the pending queue through the public
    methods that queue ([queueTransform], [withBaseColors]) only: it
    leaves on the queue what it found, and then what it queued. *)
Definition commands_only_enqueue : Prop :=
  forall f this arguments,
    pendingCommands this `prefix_of`
      pendingCommands (call f this arguments).1.

End Queue.

(** ** What the pre-processing leaves of a material *)

(** The receiver with the materials of its document replaced. *)
Definition set_materials {F} (this : DuMeshTransformer F)
    (materials : list Material) : DuMeshTransformer F :=
  set_gltfDocument this {| getRoot := {| listMaterials := materials |} |}.

(** The material the [forEach] callback of the constructor leaves in
    place of [m], with the catalogue [defs]. *)
Definition preprocessed (defs : MaterialDefinitions) (m : Material)
  : Material :=
  match getGameItemIdFromGltfMaterial m with
  | Some itemId =>
      if truthy_string itemId
      then
        match get_item (items defs) itemId with
        | Some itemMaterial =>
            {| getName := title_of itemMaterial;
               getExtras := <["item_id" := itemId]> (getExtras m) |}
        | None => m
        end
      else m
  | None => m
  end.

(** The installation directory the constructor finds by itself: the
    default directory on Windows, when it is there with its [Game/data]. *)
Definition probed_installation (platform : string)
    (env_ProgramData : option string) (fileExists : string -> bool)
    (path_join : list string -> string) : option string :=
  if String.eqb platform "win32"
  then
    let defaultGameInstall :=
      path_join [or_string env_ProgramData "C:\ProgramData";
                 "Dual Universe"] in
    if fileExists defaultGameInstall
       && fileExists (path_join [defaultGameInstall; "Game"; "data"])
    then Some defaultGameInstall
    else None
  else None.

(** ** A concrete session

    Three command functions, a platform and a small catalogue, on which
    the statements below are run. *)

Module Demo.

Inductive command_function : Type := Noop | Spawn | Fail.

(** [Noop] returns; [Spawn] queues [Noop] with the argument [7] through
    [context.transformer.queueTransform(Noop, 7)] and returns; [Fail]
    throws. *)
Definition call (f : command_function)
    (this : DuMeshTransformer command_function)
    (arguments : list (argument command_function))
  : DuMeshTransformer command_function * completion any :=
  match f with
  | Noop => (this, Normal AUndefined)
  | Spawn => (this_of (queueTransform Noop [ANumber 7] this), Normal AUndefined)
  | Fail => (this, Throw "boom")
  end.

Definition platform : string := "linux".
Definition env_ProgramData : option string := None.
Definition path_join (parts : list string) : string := String.concat "/" parts.
Definition fileExists (p : string) : bool := String.eqb p "/opt/du/Game/data".
Definition path_dirname (file : string) : string := "out".
Definition path_extname (file : string) : string := ".glb".
Definition path_basename (file ext : string) : string := "mesh".
Definition fs_mkdir (dir : string) : completion unit := Normal tt.
Definition io_write (file : string) (doc : Document) : completion unit :=
  Normal tt.

Definition steel : MaterialDefinition :=
  {| id := "1001"; title := "Steel Plate"; attributes := ∅ |}.

Definition catalog : MaterialDefinitions :=
  {| items := {[ "1001" := steel ]} |}.

Definition plate : Material :=
  {| getName := Some "Material.001";
     getExtras := {[ "item_id" := "1001"; "author" := "exporter" ]} |}.

Definition stray : Material :=
  {| getName := Some "Glass"; getExtras := ∅ |}.

Definition mesh : Document :=
  {| getRoot := {| listMaterials := [plate; stray] |} |}.

(** The session [new DuMeshTransformer(mesh, catalog)]. *)
Definition session : DuMeshTransformer command_function :=
  this_of (constructor platform env_ProgramData fileExists path_join
             mesh catalog).

(** [session.queueTransform(Spawn).queueTransform(Noop, 2)] *)
Definition queued_two : DuMeshTransformer command_function :=
  this_of (queueTransform Noop [ANumber 2]
             (this_of (queueTransform Spawn [] session))).

(** [session.queueTransform(Spawn).queueTransform(Fail).queueTransform(Noop)] *)
Definition queued_failing : DuMeshTransformer command_function :=
  this_of (queueTransform Noop []
             (this_of (queueTransform Fail []
                         (this_of (queueTransform Spawn [] session))))).

(** [queued_two] with the installation directory [/opt/du]. *)
Definition installed : DuMeshTransformer command_function :=
  set_gameInstallationPath queued_two (Some "/opt/du").

(** A catalogue with an entry under the empty identifier, and a material
    with no name and no extras. *)
Definition catalog_with_empty_id : MaterialDefinitions :=
  {| items := {[ "" := steel ]} |}.

Definition anonymous : Material :=
  {| getName := Some ""; getExtras := ∅ |}.

Definition anonymous_mesh : Document :=
  {| getRoot := {| listMaterials := [anonymous] |} |}.

End Demo.

(** ** Further definitions: chains, invariant, factories *)

(** [this.queueTransform(f1, ...a1).queueTransform(f2, ...a2)...]: each
    call returns the session, on which the next call is made. *)
Definition queueTransform_chain {F} (calls : list (F * list any)) : M F unit :=
  for_of calls (fun c => run queueTransform c.1 c.2; ret tt).

(** The session a logged call left behind. *)
Definition left_by {F}
    (call : F -> DuMeshTransformer F -> list (argument F) ->
            DuMeshTransformer F * completion any)
    (e : event F) : option (DuMeshTransformer F) :=
  match e with
  | Invoked f this arguments => Some (call f this arguments).1
  | _ => None
  end.

(** The object as the field initialisers and the parameter properties of
    the constructor leave it, before the constructor's body runs. *)
Definition fresh {F} (gltfDocument : Document)
    (materialDefinitions : MaterialDefinitions) : DuMeshTransformer F :=
  {| pendingCommands := [];
     gameInstallationPath := None;
     gltfDocument := gltfDocument;
     materialDefinitions := materialDefinitions |}.

(** The installation directory of the session, if it has one, holds a
    [Game/data]. *)
Definition installation_valid {F} (fileExists : string -> bool)
    (path_join : list string -> string) (this : DuMeshTransformer F) : Prop :=
  forall directory,
    gameInstallationPath this = Some directory ->
    fileExists (path_join [directory; "Game"; "data"]) = true.

(** The command functions do not break [installation_valid]: they reach
    the private field through [setGameInstallationDirectory] only. *)
Definition commands_keep_installation {F} (fileExists : string -> bool)
    (path_join : list string -> string)
    (call : F -> DuMeshTransformer F -> list (argument F) ->
            DuMeshTransformer F * completion any) : Prop :=
  forall f this arguments,
    installation_valid fileExists path_join this ->
    installation_valid fileExists path_join (call f this arguments).1.

Section Factories.

Context {F : Type}.
Variable platform : string.
Variable env_ProgramData : option string.
Variable fileExists : string -> bool.
Variable path_join : list string -> string.

(** The bundled catalogue: the outcome of reading and parsing
    [data/materials.json]. *)
Variable bundled_materials : completion MaterialDefinitions.

(** [JSON.parse] and the readers of [NodeIO]. *)
Variable JSONDocument : Type.
Variable JSON_parse : string -> completion JSONDocument.
Variable io_read : string -> completion Document.
Variable io_readJSON : JSONDocument -> completion Document.
Variable io_readBinary : list Byte.byte -> completion Document.

(** [await c], then [k] on its value; a rejection is thrown on. *)
Definition await {A B} (c : completion A) (k : A -> completion B)
  : completion B :=
  match c with
  | Normal a => k a
  | Throw e => Throw e
  end.

(** [new DuMeshTransformer(document, materialDefinitions)] as an
    expression: the object built, or what the constructor threw. *)
Definition construct (document : Document)
    (materialDefinitions : MaterialDefinitions)
  : completion (DuMeshTransformer F) :=
  match constructor platform env_ProgramData fileExists path_join
          document materialDefinitions with
  | (_, this, Normal _) => Normal this
  | (_, _, Throw e) => Throw e
  end.

(** [materialDefinitions || await fs.readFile(...).then(JSON.parse)]: the
    bundled catalogue is read only when none is given. *)
Definition fromDocument (document : Document)
    (materialDefinitions : option MaterialDefinitions)
  : completion (DuMeshTransformer F) :=
  await
    (match materialDefinitions with
     | Some defs => Normal defs
     | None => bundled_materials
     end)
    (fun defs => construct document defs).

Definition fromFile (file : string)
    (materialDefinitions : option MaterialDefinitions)
  : completion (DuMeshTransformer F) :=
  await (io_read file)
    (fun document => fromDocument document materialDefinitions).

(** [json: string | JSONDocument] *)
Definition fromGltfJson (json : string + JSONDocument)
    (materialDefinitions : option MaterialDefinitions)
  : completion (DuMeshTransformer F) :=
  await
    (match json with
     | inl text => JSON_parse text
     | inr parsed => Normal parsed
     end)
    (fun parsed =>
       await (io_readJSON parsed)
         (fun document => fromDocument document materialDefinitions)).

Definition fromGlbBinary (binaryData : list Byte.byte)
    (materialDefinitions : option MaterialDefinitions)
  : completion (DuMeshTransformer F) :=
  await (io_readBinary binaryData)
    (fun document => fromDocument document materialDefinitions).

End Factories.

(** ** A second concrete platform

    Windows, with the game installed under the default directory; a
    [path.join] that skips empty segments; a material whose [item_id] is
    unknown to the catalogue while its name is known. *)

Module DemoWindows.

Definition platform : string := "win32".
Definition env_ProgramData : option string := Some "".

Definition path_join (parts : list string) : string :=
  String.concat "/" (List.filter truthy_string parts).

Definition fileExists (p : string) : bool :=
  String.eqb p "C:\ProgramData/Dual Universe"
  || String.eqb p "C:\ProgramData/Dual Universe/Game/data"
  || String.eqb p "Game/data".

Definition mislabelled : Material :=
  {| getName := Some "1001"; getExtras := {[ "item_id" := "9999" ]} |}.

Definition named_by_id : Material :=
  {| getName := Some "1001"; getExtras := ∅ |}.

Definition mesh : Document :=
  {| getRoot := {| listMaterials := [mislabelled; named_by_id] |} |}.

Definition empty_catalog : MaterialDefinitions := {| items := ∅ |}.

(** A material named after a member of [Object.prototype]. *)
Definition to_string : Material :=
  {| getName := Some "toString"; getExtras := ∅ |}.

Definition to_string_mesh : Document :=
  {| getRoot := {| listMaterials := [to_string] |} |}.

Definition session : DuMeshTransformer Demo.command_function :=
  this_of (constructor platform env_ProgramData fileExists path_join
             mesh Demo.catalog).

End DemoWindows.

(** ** Facts about the loop and the queue *)

Lemma for_of_cons {F A} (x : A) (rest : list A) (body : A -> M F unit)
    (this : DuMeshTransformer F) :
  for_of (x :: rest) body this =
  match body x this with
  | (log, this', Normal _) =>
      match for_of rest body this' with
      | (log', this'', r) => (log ++ log', this'', r)
      end
  | (log, this', Throw e) => (log, this', Throw e)
  end.
Proof. reflexivity. Qed.

Section QueueFacts.

Context {F : Type}.
Variable call :
  F -> DuMeshTransformer F -> list (argument F) ->
  DuMeshTransformer F * completion any.

Lemma processQueue_unfold (this : DuMeshTransformer F) :
  processQueue call this =
  for_of (pendingCommands this) (call_command call)
    (set_pendingCommands this []).
Proof.
  unfold processQueue, bind, get_this, put_this. simpl.
  destruct (for_of _ _ _) as [[log this'] r]. reflexivity.
Qed.

Lemma call_command_unfold command (this : DuMeshTransformer F) :
  call_command call command this =
  match call (fn command) this (actuals this command) with
  | (this', Normal _) => ([invocation this command], this', Normal tt)
  | (this', Throw e) => ([invocation this command], this', Throw e)
  end.
Proof.
  unfold call_command, bind, get_this, apply, ret, invocation. simpl.
  destruct (call _ _ _) as [this' [v|e]]; reflexivity.
Qed.

(** The loop is total, and its run is the one [drains] describes. *)
Lemma for_of_drains queue : forall this : DuMeshTransformer F,
  drains call this queue
    (log_of (for_of queue (call_command call) this))
    (this_of (for_of queue (call_command call) this))
    (completion_of (for_of queue (call_command call) this)).
Proof.
  induction queue as [|command rest IH]; intros this.
  - apply drains_done.
  - rewrite for_of_cons, call_command_unfold.
    destruct (call (fn command) this (actuals this command))
      as [this1 [v|e]] eqn:Hcall.
    + specialize (IH this1).
      destruct (for_of rest (call_command call) this1) as [[log this'] r].
      eapply drains_next; eauto.
    + eapply drains_stop; eauto.
Qed.

Lemma processQueue_drains (this : DuMeshTransformer F) :
  drains call (set_pendingCommands this []) (pendingCommands this)
    (log_of (processQueue call this))
    (this_of (processQueue call this))
    (completion_of (processQueue call this)).
Proof. rewrite processQueue_unfold. apply for_of_drains. Qed.

(** A run that completes normally has called every command of the
    queue, in the order of the queue, once each. *)
Lemma drains_normal_calls this queue log this' :
  drains call this queue log this' (Normal tt) ->
  Forall2 (fun e command => exists r, e = invocation r command) log queue.
Proof.
  intros H. remember (Normal tt) as r eqn:Hr.
  induction H; subst.
  - constructor.
  - constructor; eauto.
  - discriminate.
Qed.

(** The first call of a run is made on the receiver the run starts on. *)
Lemma drains_first_receiver this queue log this' r e :
  drains call this queue log this' r ->
  head log = Some e -> receiver e = Some this.
Proof.
  intros H. destruct H; simpl; intros He; try discriminate;
    injection He as <-; reflexivity.
Qed.

(** With commands that only queue, the queue a run ends on is the queue
    it started on followed by what its calls queued, in order. *)
Lemma drains_pending this queue log this' r :
  commands_only_enqueue call ->
  drains call this queue log this' r ->
  pendingCommands this' =
  pendingCommands this ++ concat (map (enqueued_by call) log).
Proof.
  intros Hq H. induction H.
  - simpl. by rewrite app_nil_r.
  - rewrite IHdrains. simpl. rewrite H. simpl.
    destruct (Hq (fn command) this (actuals this command)) as [added Ha].
    rewrite H in Ha. simpl in Ha. rewrite Ha.
    rewrite drop_app_length. by rewrite app_assoc.
  - simpl. rewrite H. simpl.
    destruct (Hq (fn command) this (actuals this command)) as [added Ha].
    rewrite H in Ha. simpl in Ha. rewrite Ha.
    rewrite drop_app_length. by rewrite app_nil_r.
Qed.

(** A run that throws stopped at the command that threw: the commands
    before it completed, the ones after it were not called. *)
Lemma drains_throw_calls this queue log this' e :
  drains call this queue log this' (Throw e) ->
  exists done failing rest r this1,
    queue = done ++ failing :: rest /\
    Forall2 (fun ev command => exists r, ev = invocation r command)
      log (done ++ [failing]) /\
    last log = Some (invocation r failing) /\
    call (fn failing) r (actuals r failing) = (this1, Throw e) /\
    this' = this1.
Proof.
  intros H. remember (Throw e) as c eqn:Hc.
  induction H; subst.
  - discriminate.
  - destruct (IHdrains eq_refl)
      as (done & failing & rest' & r0 & t1 & -> & Hall & Hlast & Hcall & ->).
    exists (command :: done), failing, rest', r0, t1.
    repeat split; auto.
    + simpl. constructor; eauto.
    + simpl. destruct log; [inversion Hall; destruct done; discriminate|].
      exact Hlast.
  - injection Hc as ->.
    exists [], command, rest, this, this1.
    repeat split; auto. simpl. constructor; eauto.
Qed.

(** The same with the assumption on the calls of the run only. *)
Lemma drains_pending_local this queue log this' r :
  drains call this queue log this' r ->
  Forall (appends_only call) log ->
  pendingCommands this' =
  pendingCommands this ++ concat (map (enqueued_by call) log).
Proof.
  intros H. induction H as [this|this command rest this1 v log this' r
                              Hcall Hd IH
                            |this command rest this1 e Hcall]; intros Hq.
  - simpl. by rewrite app_nil_r.
  - apply Forall_cons in Hq as [[added Ha] Hq]. rewrite (IH Hq).
    simpl. rewrite Hcall in *. simpl in *. rewrite Ha.
    rewrite drop_app_length. by rewrite app_assoc.
  - apply Forall_cons in Hq as [[added Ha] _].
    simpl. rewrite Hcall in *. simpl in *. rewrite Ha.
    rewrite drop_app_length. by rewrite app_nil_r.
Qed.

(** The loop over commands that all return, called in turn. *)
Lemma for_of_returns queue : forall (this r : DuMeshTransformer F),
  returns_in_turn call queue this = Some r ->
  for_of queue (call_command call) this =
  (calls_in_turn call queue this, r, Normal tt).
Proof.
  induction queue as [|command rest IH]; intros this r Hr.
  - simpl in Hr. by injection Hr as <-.
  - rewrite for_of_cons, call_command_unfold. simpl in *.
    destruct (call (fn command) this (actuals this command))
      as [this1 [v|e]]; [|discriminate].
    by rewrite (IH _ _ Hr).
Qed.

(** The loop over commands of which one throws after those before it
    returned. *)
Lemma for_of_throws done :
  forall (this r this1 : DuMeshTransformer F) failing rest e,
    returns_in_turn call done this = Some r ->
    call (fn failing) r (actuals r failing) = (this1, Throw e) ->
    for_of (done ++ failing :: rest) (call_command call) this =
    (calls_in_turn call (done ++ [failing]) this, this1, Throw e).
Proof.
  induction done as [|command done IH];
    intros this r this1 failing rest e Hr Hcall.
  - simpl in Hr. injection Hr as <-.
    cbn [app]. rewrite for_of_cons, call_command_unfold, Hcall.
    reflexivity.
  - cbn [app]. rewrite for_of_cons, call_command_unfold. simpl in *.
    destruct (call (fn command) this (actuals this command))
      as [this2 [v|e']]; [|discriminate].
    by rewrite (IH _ _ _ _ _ _ Hr Hcall).
Qed.

(** Whatever the commands do, the calls of the loop are the calls, made
    in turn, of the first commands of the queue. *)
Lemma for_of_calls_prefix queue : forall this : DuMeshTransformer F,
  exists k,
    log_of (for_of queue (call_command call) this) =
    calls_in_turn call (take k queue) this.
Proof.
  induction queue as [|command rest IH]; intros this.
  - by exists 0.
  - rewrite for_of_cons, call_command_unfold.
    destruct (call (fn command) this (actuals this command))
      as [this1 [v|e]] eqn:Hcall.
    + destruct (IH this1) as [k Hk]. exists (S k).
      destruct (for_of rest (call_command call) this1) as [[log t] r].
      unfold log_of in *. simpl in *. by rewrite Hcall, Hk.
    + exists 1. reflexivity.
Qed.

(** The calls made in turn are one call per command, in order. *)
Lemma calls_in_turn_each queue : forall this : DuMeshTransformer F,
  Forall2 (fun e command => exists r, e = invocation r command)
    (calls_in_turn call queue this) queue.
Proof.
  induction queue as [|command rest IH]; intros this; simpl;
    constructor; eauto.
Qed.

End QueueFacts.

(** ** The material resolver *)

Lemma truthy_string_true (s : string) : truthy_string s = true <-> s <> "".
Proof.
  unfold truthy_string. destruct (String.eqb_spec s ""); simpl; split;
    congruence.
Qed.

Lemma truthy_string_false (s : string) : truthy_string s = false <-> s = "".
Proof.
  unfold truthy_string. destruct (String.eqb_spec s ""); simpl; split;
    congruence.
Qed.

Lemma or_null_id {A} (a : option A) : or_null a = a.
Proof. by destruct a. Qed.

Lemma truthy_Some (s : string) : truthy (Some s) = truthy_string s.
Proof. reflexivity. Qed.

(** C5. [getGameItemIdFromGltfMaterial] returns, for every material, the
    extra [item_id] when the material has one and it is not empty, and
    the display name otherwise, hence the empty string when the material
    has no (or an empty) [item_id] and an empty name; what it returns is
    a string whenever the name is one. *)
Theorem getGameItemIdFromGltfMaterial_spec (material : Material) :
  (forall s, getExtras material !! "item_id" = Some s -> s <> "" ->
     getGameItemIdFromGltfMaterial material = Some s) /\
  (getExtras material !! "item_id" = None \/
   getExtras material !! "item_id" = Some "" ->
     getGameItemIdFromGltfMaterial material = getName material) /\
  ((getExtras material !! "item_id" = None \/
    getExtras material !! "item_id" = Some "") ->
   getName material = Some "" ->
     getGameItemIdFromGltfMaterial material = Some "") /\
  (forall name, getName material = Some name ->
     exists s, getGameItemIdFromGltfMaterial material = Some s).
Proof.
  unfold getGameItemIdFromGltfMaterial, or_undefined. repeat split.
  - intros s -> Hs. apply truthy_string_true in Hs.
    by rewrite truthy_Some, Hs.
  - by intros [-> | ->].
  - by intros [-> | ->] ->.
  - intros name ->.
    destruct (getExtras material !! "item_id") as [s|]; simpl;
      [destruct (truthy_string s)|]; eauto.
Qed.

(** What [getGameMaterialFromItemId] returns, case by case: the entry for
    an own key of the catalogue; for another key, the member of
    [Object.prototype] of that name when there is one, and [null] when
    there is none. *)
Lemma getGameMaterialFromItemId_cases {F} (this : DuMeshTransformer F)
    (itemId : string) :
  (forall d, items (materialDefinitions this) !! itemId = Some d ->
     getGameMaterialFromItemId this itemId = Some (Entry d)) /\
  (items (materialDefinitions this) !! itemId = None ->
   inherited itemId = false ->
     getGameMaterialFromItemId this itemId = None) /\
  (items (materialDefinitions this) !! itemId = None ->
   inherited itemId = true ->
     getGameMaterialFromItemId this itemId = Some (Inherited itemId)).
Proof.
  unfold getGameMaterialFromItemId, getMaterialDefinitions, get_item.
  rewrite or_null_id. repeat split.
  - by intros d ->.
  - by intros -> ->.
  - by intros -> ->.
Qed.

Lemma omap_cons {A B} (f : A -> option B) (a : A) (l : list A) :
  omap f (a :: l) =
  match f a with Some b => b :: omap f l | None => omap f l end.
Proof. reflexivity. Qed.

Lemma as_pairs_filter_map {A} (f : A -> option MaterialPair) (l : list A) :
  as_pairs (List.filter (fun pair => not_not pair) (map f l)) = omap f l.
Proof.
  induction l as [|a l IH]; [done|].
  rewrite omap_cons, <- IH. simpl. by destruct (f a).
Qed.


(** ** The pre-processing of the constructor *)

Lemma set_materials_same {F} (this : DuMeshTransformer F) :
  set_materials this (listMaterials (getRoot (gltfDocument this))) = this.
Proof. by destruct this as [q p [[ms]] defs]. Qed.

Lemma set_materials_twice {F} (this : DuMeshTransformer F) ms ms' :
  set_materials (set_materials this ms) ms' = set_materials this ms'.
Proof. reflexivity. Qed.

(** One round of the [forEach]: the material at [index] is replaced by
    its pre-processed form, nothing is thrown, nothing else changes. *)
Lemma preprocess_material_run {F} (this : DuMeshTransformer F) index m :
  listMaterials (getRoot (gltfDocument this)) !! index = Some m ->
  preprocess_material index this =
  ([], set_materials this
         (<[index := preprocessed (materialDefinitions this) m]>
            (listMaterials (getRoot (gltfDocument this)))),
   Normal tt).
Proof.
  intros Hm.
  unfold preprocess_material, material_at, bind, get_this. simpl.
  rewrite Hm. simpl. unfold preprocessed.
  destruct (getGameItemIdFromGltfMaterial m) as [itemId|] eqn:Hitem; simpl;
    [|rewrite list_insert_id by done; by rewrite set_materials_same].
  destruct (truthy_string itemId) eqn:Hid;
    [|rewrite list_insert_id by done; by rewrite set_materials_same].
  unfold getGameMaterialFromItemId, getMaterialDefinitions.
  rewrite or_null_id.
  destruct (get_item (items (materialDefinitions this)) itemId)
    as [itemMaterial|] eqn:Hd;
    [|simpl; rewrite list_insert_id by done; by rewrite set_materials_same].
  unfold update_material, bind, get_this, put_this, set_materials. simpl.
  do 5 f_equal.
  apply list_eq. intros j.
  destruct (decide (index = j)) as [<-|Hne].
  - rewrite !list_lookup_alter_eq, Hm. simpl.
    rewrite list_lookup_insert_eq by (by eapply lookup_lt_Some).
    reflexivity.
  - by rewrite !list_lookup_alter_ne, list_lookup_insert_ne by done.
Qed.

Lemma preprocess_rounds {F} (n : nat) :
  forall (k : nat) (this : DuMeshTransformer F),
    k + n = length (listMaterials (getRoot (gltfDocument this))) ->
    for_of (seq k n) preprocess_material this =
    ([], set_materials this
           (take k (listMaterials (getRoot (gltfDocument this))) ++
            map (preprocessed (materialDefinitions this))
              (drop k (listMaterials (getRoot (gltfDocument this))))),
     Normal tt).
Proof.
  induction n as [|n IH]; intros k this Hlen.
  - simpl. unfold ret. rewrite drop_ge by lia. simpl.
    rewrite app_nil_r, take_ge by lia. by rewrite set_materials_same.
  - set (ms := listMaterials (getRoot (gltfDocument this))) in *.
    destruct (lookup_lt_is_Some_2 ms k) as [m Hm]; [lia|].
    cbn [seq]. rewrite for_of_cons.
    rewrite (preprocess_material_run this k m Hm). fold ms.
    rewrite IH by (simpl; rewrite length_insert; fold ms; lia).
    simpl. rewrite set_materials_twice. do 3 f_equal.
    rewrite take_insert_lt by lia.
    rewrite drop_insert_lt by lia.
    rewrite (take_S_r _ _ _ Hm), insert_app_r_alt by (rewrite length_take; lia).
    rewrite length_take, Nat.min_l by lia.
    rewrite Nat.sub_diag. simpl.
    rewrite (drop_S ms m k Hm). simpl.
    by rewrite <- app_assoc.
Qed.

(** The whole [forEach]: every material is replaced by its pre-processed
    form, in place. *)
Lemma preprocess_materials_run {F} (this : DuMeshTransformer F) :
  preprocess_materials this =
  ([], set_materials this
         (map (preprocessed (materialDefinitions this))
            (listMaterials (getRoot (gltfDocument this)))),
   Normal tt).
Proof.
  unfold preprocess_materials, bind, get_this. simpl.
  rewrite preprocess_rounds by done. by rewrite take_0, drop_0.
Qed.

(** A material stamped with a non-empty [item_id] has that item id,
    whatever its name. *)
Lemma item_id_of_stamped (name : option string) (itemId : string)
    (extras : gmap string string) :
  truthy_string itemId = true ->
  getGameItemIdFromGltfMaterial
    {| getName := name; getExtras := <["item_id" := itemId]> extras |} =
  Some itemId.
Proof.
  intros Hid. unfold getGameItemIdFromGltfMaterial, or_undefined. simpl.
  rewrite lookup_insert_eq. simpl. by rewrite Hid.
Qed.

Lemma preprocessed_twice (defs : MaterialDefinitions) (m : Material) :
  preprocessed defs (preprocessed defs m) = preprocessed defs m.
Proof.
  unfold preprocessed at 2.
  destruct (getGameItemIdFromGltfMaterial m) as [itemId|] eqn:Hitem;
    [|unfold preprocessed; by rewrite Hitem].
  destruct (truthy_string itemId) eqn:Hid;
    [|unfold preprocessed; by rewrite Hitem, Hid].
  destruct (get_item (items defs) itemId) as [itemMaterial|] eqn:Hd;
    [|unfold preprocessed; by rewrite Hitem, Hid, Hd].
  unfold preprocessed.
  rewrite (item_id_of_stamped _ _ _ Hid), Hitem, Hid, Hd. simpl.
  by rewrite insert_insert_eq.
Qed.

Section Constructor.

Context {F : Type}.
Variable platform : string.
Variable env_ProgramData : option string.
Variable fileExists : string -> bool.
Variable path_join : list string -> string.

Local Abbreviation new_DuMeshTransformer :=
  (constructor (F:=F) platform env_ProgramData fileExists path_join).

(** The constructor never throws and calls nothing outside; it builds the
    session on the pre-processed materials. *)
Lemma constructor_run (doc : Document) (defs : MaterialDefinitions) :
  new_DuMeshTransformer doc defs =
  ([],
   {| pendingCommands := [];
      gameInstallationPath :=
        probed_installation platform env_ProgramData fileExists path_join;
      gltfDocument :=
        {| getRoot :=
             {| listMaterials :=
                  map (preprocessed defs) (listMaterials (getRoot doc)) |} |};
      materialDefinitions := defs |},
   Normal tt).
Proof.
  unfold constructor, constructor_body, probed_installation.
  set (this0 := {| pendingCommands := []; gameInstallationPath := None;
                   gltfDocument := doc; materialDefinitions := defs |}).
  unfold bind at 1.
  destruct (String.eqb platform "win32").
  - set (dir := path_join [or_string env_ProgramData _; _]).
    destruct (fileExists dir); simpl;
      [|by rewrite preprocess_materials_run].
    unfold setGameInstallationDirectory.
    destruct (fileExists (path_join [dir; "Game"; "data"])); simpl;
      by rewrite preprocess_materials_run.
  - simpl. by rewrite preprocess_materials_run.
Qed.

(** C4. The pre-processing of the constructor is idempotent: a session
    built, with the same catalogue, on the document of a session already
    built has the same materials (names and extras), and running the pass
    again on a session leaves the session as it is. *)
Theorem preprocessing_idempotent (doc : Document)
    (defs : MaterialDefinitions) :
  let first := new_DuMeshTransformer doc defs in
  let second := new_DuMeshTransformer (gltfDocument (this_of first)) defs in
  completion_of first = Normal tt /\
  completion_of second = Normal tt /\
  gltfDocument (this_of second) = gltfDocument (this_of first) /\
  preprocess_materials (this_of first) = ([], this_of first, Normal tt).
Proof.
  simpl. rewrite !constructor_run. unfold this_of, completion_of. simpl.
  assert (Hmap : map (preprocessed defs)
                   (map (preprocessed defs) (listMaterials (getRoot doc))) =
                 map (preprocessed defs) (listMaterials (getRoot doc))).
  { rewrite map_map. apply map_ext. intros m. apply preprocessed_twice. }
  repeat split.
  - by rewrite Hmap.
  - rewrite preprocess_materials_run. unfold set_materials. simpl.
    by rewrite Hmap.
Qed.

(** C8, as amended.  For a material of the document whose item id is not
    empty and is a key of the catalogue, the constructor sets the name to
    the title of the catalogue entry and the extra [item_id] to the item
    id, and leaves every other extra as it is; a material whose item id
    is empty (or undefined), or that resolves to nothing
    ([getGameMaterialFromGltfMaterial] returns [null]), is left as it
    is. *)
Theorem preprocessing_frame (doc : Document) (defs : MaterialDefinitions)
    (index : nat) (m : Material) :
  listMaterials (getRoot doc) !! index = Some m ->
  let this := this_of (new_DuMeshTransformer doc defs) in
  let after := listMaterials (getRoot (gltfDocument this)) !! index in
  (forall itemId d,
     getGameItemIdFromGltfMaterial m = Some itemId ->
     itemId <> "" ->
     items defs !! itemId = Some d ->
     exists m',
       after = Some m' /\
       getName m' = Some (title d) /\
       getExtras m' !! "item_id" = Some itemId /\
       forall key, key <> "item_id" ->
         getExtras m' !! key = getExtras m !! key) /\
  (getGameItemIdFromGltfMaterial m = None \/
   getGameItemIdFromGltfMaterial m = Some "" \/
   getGameMaterialFromGltfMaterial this m = None ->
   after = Some m).
Proof.
  intros Hm. simpl. rewrite constructor_run. unfold this_of. simpl.
  unfold getGameMaterialFromGltfMaterial, getGameMaterialFromItemId,
    getMaterialDefinitions. simpl. rewrite or_null_id.
  rewrite list_lookup_fmap, Hm. simpl. unfold preprocessed. split.
  - intros itemId d -> Hid Hd. apply truthy_string_true in Hid.
    unfold get_item. rewrite Hid, Hd.
    eexists. split; [reflexivity|]. simpl. repeat split.
    + apply lookup_insert_eq.
    + intros key Hkey. by apply lookup_insert_ne.
  - intros [-> | [-> | Hg]]; [done | done |].
    destruct (getGameItemIdFromGltfMaterial m) as [itemId|]; [|done].
    simpl in Hg. rewrite Hg. by destruct (truthy_string itemId).
Qed.

End Constructor.

(** ** The installation directory *)

Section Installation.

Context {F : Type}.
Variable fileExists : string -> bool.
Variable path_join : list string -> string.

(** C9. [setGameInstallationDirectory] throws when the directory has no
    [Game/data], and then leaves the session, its installation directory
    included, as it was; when [Game/data] is there it stores the
    directory and returns the session. *)
Theorem setGameInstallationDirectory_spec (this : DuMeshTransformer F)
    (directory : string) :
  (fileExists (path_join [directory; "Game"; "data"]) = false ->
   setGameInstallationDirectory fileExists path_join directory this =
   ([], this, Throw ("Invalid game directory: " +:+ directory))) /\
  (fileExists (path_join [directory; "Game"; "data"]) = true ->
   let this' := set_gameInstallationPath this (Some directory) in
   setGameInstallationDirectory fileExists path_join directory this =
   ([], this', Normal this')).
Proof.
  unfold setGameInstallationDirectory. split; intros ->; reflexivity.
Qed.

(** C10. [getDataDirectory] never throws and leaves the session as it is;
    it returns [null] exactly when [isGameInstallationDirectorySet] is
    false, and otherwise the installation directory joined with [Game]
    and [data]. *)
Theorem getDataDirectory_spec (this : DuMeshTransformer F) :
  exists result,
    getDataDirectory path_join this = ([], this, Normal result) /\
    (result = None <-> isGameInstallationDirectorySet this = false) /\
    (isGameInstallationDirectorySet this = true ->
     exists directory,
       gameInstallationPath this = Some directory /\
       result = Some (path_join [directory; "Game"; "data"])).
Proof.
  unfold getDataDirectory, isGameInstallationDirectorySet, bind, get_this.
  simpl. destruct (gameInstallationPath this) as [directory|]; simpl.
  - destruct (truthy_string directory); simpl.
    + eexists. split; [reflexivity|]. split; [split; discriminate|].
      intros _. by exists directory.
    + exists None. split; [reflexivity|]. split; [done | discriminate].
  - exists None. split; [reflexivity|]. split; [done | discriminate].
Qed.

End Installation.

(** ** Queueing and draining *)

Section Drain.

Context {F : Type}.
Variable call :
  F -> DuMeshTransformer F -> list (argument F) ->
  DuMeshTransformer F * completion any.
Variable fileExists : string -> bool.
Variable path_join : list string -> string.
Variable path_dirname : string -> string.
Variable path_basename : string -> string -> string.
Variable path_extname : string -> string.
Variable fs_mkdir : string -> completion unit.
Variable io_write : string -> Document -> completion unit.

Local Abbreviation save :=
  (saveToFile call fileExists path_join path_dirname path_basename
     path_extname fs_mkdir io_write).

(** [queue] appends the command with the arguments it was given and
    returns the session. *)
Lemma queue_run (command : F) (args : list any) (this : DuMeshTransformer F) :
  let this' :=
    set_pendingCommands this
      (pendingCommands this ++ [{| fn := command; args := args |}]) in
  queue command args this = ([], this', Normal this').
Proof. reflexivity. Qed.

(** [queueTransform] appends the command with one stored argument, the
    array of the arguments it was given. *)
Lemma queueTransform_run (command : F) (args : list any)
    (this : DuMeshTransformer F) :
  let this' :=
    set_pendingCommands this
      (pendingCommands this ++ [{| fn := command; args := [AArray args] |}]) in
  queueTransform command args this = ([], this', Normal this').
Proof. reflexivity. Qed.

(** A command queued by [queueTransform] on an empty queue is called, at
    the next drain, with the context and one more argument: the array. *)
Lemma processQueue_after_queueTransform (command : F) (values : list any)
    (this : DuMeshTransformer F) :
  pendingCommands this = [] ->
  log_of (processQueue call (this_of (queueTransform command values this))) =
  [Invoked command this
     [ArgContext {| document := gltfDocument this; transformer := this |};
      ArgValue (AArray values)]].
Proof.
  intros Hq. rewrite processQueue_unfold. unfold this_of.
  rewrite queueTransform_run. destruct this as [q p d defs]. simpl in Hq. subst q.
  cbn [fst snd pendingCommands set_pendingCommands app gameInstallationPath
       gltfDocument materialDefinitions].
  rewrite for_of_cons, call_command_unfold.
  unfold invocation, actuals. cbn [fn args map gltfDocument].
  by destruct (call _ _ _) as [this1 [v|e]].
Qed.

(** A command queued by [withBaseColors] is called with the context
    only. *)
Lemma processQueue_after_withBaseColors (BaseColorsTransform : F)
    (this : DuMeshTransformer F) :
  pendingCommands this = [] ->
  log_of (processQueue call (this_of (withBaseColors BaseColorsTransform this))) =
  [Invoked BaseColorsTransform this
     [ArgContext {| document := gltfDocument this; transformer := this |}]].
Proof.
  intros Hq. rewrite processQueue_unfold. unfold this_of, withBaseColors.
  rewrite queue_run. destruct this as [q p d defs]. simpl in Hq. subst q.
  cbn [fst snd pendingCommands set_pendingCommands app gameInstallationPath
       gltfDocument materialDefinitions].
  rewrite for_of_cons, call_command_unfold.
  unfold invocation, actuals. cbn [fn args map gltfDocument].
  by destruct (call _ _ _) as [this1 [v|e]].
Qed.

(** [saveToFile] passes on what a command threw, writes nothing then and
    leaves the session as the drain left it. *)
Lemma saveToFile_throw (file : string) (saveAsJson : bool)
    (this : DuMeshTransformer F) (e : string) :
  completion_of (processQueue call this) = Throw e ->
  save file saveAsJson this =
  (log_of (processQueue call this), this_of (processQueue call this), Throw e).
Proof.
  unfold saveToFile, bind at 1.
  destruct (processQueue call this) as [[log this'] [[]|e']]; simpl;
    [discriminate | by intros [= ->]].
Qed.

(** C2, as amended.  Of every drain, the first call is made on the
    session with its queue already emptied, the calls are those, made in
    turn, of the first commands of the queue as it was when the drain
    began, and what the called commands queue (as long as they reach the
    pending queue by queueing only) is not called and is the pending
    queue after the drain.  When each
    command returns, called in turn, the drain calls the commands that
    were pending when it began, in the order they were queued, once each,
    and no other, and returns; when a command throws after those before
    it returned, the calls of the drain are those of the commands up to
    and including it. *)
Theorem processQueue_fifo (this : DuMeshTransformer F) :
  let cleared := set_pendingCommands this [] in
  let log := log_of (processQueue call this) in
  (forall e, head log = Some e -> receiver e = Some cleared) /\
  (exists k,
     log = calls_in_turn call (take k (pendingCommands this)) cleared) /\
  (forall r,
     returns_in_turn call (pendingCommands this) cleared = Some r ->
     processQueue call this =
       (calls_in_turn call (pendingCommands this) cleared, r, Normal tt) /\
     Forall2 (fun e command => exists r, e = invocation r command)
       log (pendingCommands this)) /\
  (forall done failing rest r this1 e,
     pendingCommands this = done ++ failing :: rest ->
     returns_in_turn call done cleared = Some r ->
     call (fn failing) r (actuals r failing) = (this1, Throw e) ->
     log = calls_in_turn call (done ++ [failing]) cleared) /\
  (Forall (appends_only call) log ->
   pendingCommands (this_of (processQueue call this)) =
   concat (map (enqueued_by call) log)).
Proof.
  simpl. pose proof (processQueue_drains call this) as Hd.
  split; [intros e He; by eapply drains_first_receiver|].
  split; [rewrite processQueue_unfold; apply for_of_calls_prefix|].
  repeat split.
  - rewrite processQueue_unfold. by apply for_of_returns.
  - rewrite processQueue_unfold, (for_of_returns _ _ _ _ H).
    apply calls_in_turn_each.
  - intros done failing rest r this1 e Hq Hr Hcall.
    rewrite processQueue_unfold, Hq.
    by rewrite (for_of_throws _ _ _ _ _ _ _ _ Hr Hcall).
  - intros Hq. by rewrite (drains_pending_local _ _ _ _ _ _ Hd Hq).
Qed.

(** C3. When a command of the drained queue throws, the commands queued
    before it having returned: the drain has called those and it, in
    order, and none of the commands queued after it; [processQueue] and
    [saveToFile] throw what it threw, nothing is written, and the session
    is as the throwing command left it; the pending queue then holds what
    the called commands queued (as long as they reach the pending queue
    by queueing only), and nothing of the drained queue. *)
Theorem processQueue_failure (this : DuMeshTransformer F)
    (done : list (ProcessingQueueCommand F))
    (failing : ProcessingQueueCommand F)
    (rest : list (ProcessingQueueCommand F))
    (r this1 : DuMeshTransformer F) (e : string)
    (file : string) (saveAsJson : bool) :
  pendingCommands this = done ++ failing :: rest ->
  returns_in_turn call done (set_pendingCommands this []) = Some r ->
  call (fn failing) r (actuals r failing) = (this1, Throw e) ->
  let log :=
    calls_in_turn call (done ++ [failing]) (set_pendingCommands this []) in
  processQueue call this = (log, this1, Throw e) /\
  save file saveAsJson this = (log, this1, Throw e) /\
  Forall2 (fun ev command => exists r, ev = invocation r command)
    log (done ++ [failing]) /\
  (Forall (appends_only call) log ->
   pendingCommands this1 = concat (map (enqueued_by call) log)).
Proof.
  intros Hq Hr Hcall. simpl.
  assert (Hrun : processQueue call this =
                 (calls_in_turn call (done ++ [failing])
                    (set_pendingCommands this []), this1, Throw e)).
  { rewrite processQueue_unfold, Hq.
    by apply (for_of_throws _ _ _ _ _ _ _ _ Hr Hcall). }
  repeat split.
  - exact Hrun.
  - rewrite (saveToFile_throw file saveAsJson this e)
      by (by rewrite Hrun).
    by rewrite Hrun.
  - apply calls_in_turn_each.
  - intros Happ. pose proof (processQueue_drains call this) as Hd.
    rewrite Hrun in Hd. unfold log_of, this_of, completion_of in Hd.
    simpl in Hd. by rewrite (drains_pending_local _ _ _ _ _ _ Hd Happ).
Qed.

End Drain.

(** ** The statements on the concrete session *)

(** The command functions of [Demo] reach the pending queue by queueing
    only. *)
Lemma demo_commands_only_enqueue : commands_only_enqueue Demo.call.
Proof.
  intros f this arguments. destruct f; simpl.
  - exists []. by rewrite app_nil_r.
  - eexists. reflexivity.
  - exists []. by rewrite app_nil_r.
Qed.

(** C1. [queueTransform(Noop, 1, 2)] followed by [saveToFile]: [Noop] is
    called with the context and ONE further argument, the array [[1, 2]],
    not with the context followed by [1] and [2].  The rest parameter of
    [queueTransform] is handed to [queue] without being spread, and
    [queue] collects it in its own rest parameter. *)
Theorem queueTransform_call_gets_one_array :
  let queued :=
    this_of (queueTransform Demo.Noop [ANumber 1; ANumber 2] Demo.session) in
  let ctx :=
    ArgContext {| document := gltfDocument Demo.session;
                  transformer := Demo.session |} in
  log_of
    (saveToFile Demo.call Demo.fileExists Demo.path_join Demo.path_dirname
       Demo.path_basename Demo.path_extname Demo.fs_mkdir Demo.io_write
       "out/mesh.glb" false queued) =
  [Invoked Demo.Noop Demo.session
     [ctx; ArgValue (AArray [ANumber 1; ANumber 2])];
   Written "out/mesh.glb" (gltfDocument Demo.session)] /\
  [ctx; ArgValue (AArray [ANumber 1; ANumber 2])] <>
  ctx :: map ArgValue [ANumber 1; ANumber 2].
Proof.
  split.
  - vm_compute. reflexivity.
  - simpl. congruence.
Qed.

(** Command functions that only queue make calls that only append. *)
Lemma calls_append_only {F}
    (call : F -> DuMeshTransformer F -> list (argument F) ->
            DuMeshTransformer F * completion any)
    (log : list (event F)) :
  commands_only_enqueue call -> Forall (appends_only call) log.
Proof.
  intros Hq. apply Forall_forall. intros [f this arguments| |] _; simpl;
    [apply Hq | done | done].
Qed.

Lemma processQueue_fifo_witness :
  let cleared := set_pendingCommands Demo.queued_two [] in
  let r :=
    set_pendingCommands Demo.session
      [{| fn := Demo.Noop; args := [AArray [ANumber 7]] |}] in
  let log := log_of (processQueue Demo.call Demo.queued_two) in
  returns_in_turn Demo.call (pendingCommands Demo.queued_two) cleared =
    Some r /\
  Forall (appends_only Demo.call) log /\
  (forall e, head log = Some e -> receiver e = Some cleared) /\
  processQueue Demo.call Demo.queued_two =
    (calls_in_turn Demo.call (pendingCommands Demo.queued_two) cleared,
     r, Normal tt) /\
  Forall2 (fun e command => exists r, e = invocation r command)
    log (pendingCommands Demo.queued_two) /\
  pendingCommands (this_of (processQueue Demo.call Demo.queued_two)) =
    concat (map (enqueued_by Demo.call) log).
Proof.
  simpl.
  destruct (processQueue_fifo Demo.call Demo.queued_two)
    as (Hfirst & _ & Hreturns & _ & Hpending).
  assert (Happ : Forall (appends_only Demo.call)
                   (log_of (processQueue Demo.call Demo.queued_two)))
    by (apply calls_append_only, demo_commands_only_enqueue).
  split; [reflexivity|]. split; [exact Happ|]. split; [exact Hfirst|].
  split; [exact (proj1 (Hreturns _ eq_refl))|].
  split; [exact (proj2 (Hreturns _ eq_refl))|].
  exact (Hpending Happ).
Defined.

Lemma processQueue_failure_witness :
  let done := [{| fn := Demo.Spawn; args := [AArray []] |}] in
  let failing := {| fn := Demo.Fail; args := [AArray []] |} in
  let rest := [{| fn := Demo.Noop; args := [AArray []] |}] in
  let r :=
    set_pendingCommands Demo.session
      [{| fn := Demo.Noop; args := [AArray [ANumber 7]] |}] in
  let log :=
    calls_in_turn Demo.call (done ++ [failing])
      (set_pendingCommands Demo.queued_failing []) in
  pendingCommands Demo.queued_failing = done ++ failing :: rest /\
  returns_in_turn Demo.call done
    (set_pendingCommands Demo.queued_failing []) = Some r /\
  Demo.call (fn failing) r (actuals r failing) = (r, Throw "boom") /\
  Forall (appends_only Demo.call) log /\
  processQueue Demo.call Demo.queued_failing = (log, r, Throw "boom") /\
  saveToFile Demo.call Demo.fileExists Demo.path_join Demo.path_dirname
    Demo.path_basename Demo.path_extname Demo.fs_mkdir Demo.io_write
    "out/mesh.glb" false Demo.queued_failing = (log, r, Throw "boom") /\
  Forall2 (fun ev command => exists r, ev = invocation r command)
    log (done ++ [failing]) /\
  pendingCommands r = concat (map (enqueued_by Demo.call) log).
Proof.
  simpl.
  destruct (processQueue_failure Demo.call Demo.fileExists Demo.path_join
              Demo.path_dirname Demo.path_basename Demo.path_extname
              Demo.fs_mkdir Demo.io_write Demo.queued_failing
              [{| fn := Demo.Spawn; args := [AArray []] |}]
              {| fn := Demo.Fail; args := [AArray []] |}
              [{| fn := Demo.Noop; args := [AArray []] |}]
              (set_pendingCommands Demo.session
                 [{| fn := Demo.Noop; args := [AArray [ANumber 7]] |}])
              (set_pendingCommands Demo.session
                 [{| fn := Demo.Noop; args := [AArray [ANumber 7]] |}])
              "boom" "out/mesh.glb" false eq_refl eq_refl eq_refl)
    as (Hrun & Hsave & Hcalls & Hpending).
  assert (Happ : Forall (appends_only Demo.call)
                   (calls_in_turn Demo.call
                      [{| fn := Demo.Spawn; args := [AArray []] |};
                       {| fn := Demo.Fail; args := [AArray []] |}]
                      (set_pendingCommands Demo.queued_failing [])))
    by (apply calls_append_only, demo_commands_only_enqueue).
  split; [reflexivity|]. split; [reflexivity|]. split; [reflexivity|].
  split; [exact Happ|]. split; [exact Hrun|]. split; [exact Hsave|].
  split; [exact Hcalls|]. exact (Hpending Happ).
Defined.

(** C6. [getGameMaterialFromItemId("toString")] on the session built with
    the catalogue of [Demo], which has no entry ["toString"]: the result
    is not [null] but the member [toString] that the catalogue object
    inherits from [Object.prototype]. *)
Theorem getGameMaterialFromItemId_finds_inherited_member :
  items (materialDefinitions Demo.session) !! "toString" = None /\
  getGameMaterialFromItemId Demo.session "toString" =
    Some (Inherited "toString") /\
  getGameMaterialFromItemId Demo.session "1001" = Some (Entry Demo.steel) /\
  getGameMaterialFromItemId Demo.session "1002" = None.
Proof. repeat split. Qed.

Lemma preprocessing_frame_witness :
  listMaterials (getRoot Demo.mesh) !! 0 = Some Demo.plate /\
  (let this := Demo.session in
   let after := listMaterials (getRoot (gltfDocument this)) !! 0 in
   (forall itemId d,
      getGameItemIdFromGltfMaterial Demo.plate = Some itemId ->
      itemId <> "" ->
      items Demo.catalog !! itemId = Some d ->
      exists m',
        after = Some m' /\
        getName m' = Some (title d) /\
        getExtras m' !! "item_id" = Some itemId /\
        forall key, key <> "item_id" ->
          getExtras m' !! key = getExtras Demo.plate !! key) /\
   (getGameItemIdFromGltfMaterial Demo.plate = None \/
    getGameItemIdFromGltfMaterial Demo.plate = Some "" \/
    getGameMaterialFromGltfMaterial this Demo.plate = None ->
    after = Some Demo.plate)) /\
  getGameItemIdFromGltfMaterial Demo.plate = Some "1001" /\
  items Demo.catalog !! "1001" = Some Demo.steel.
Proof.
  split; [reflexivity|]. split; [|by split].
  apply (preprocessing_frame (F:=Demo.command_function) Demo.platform
           Demo.env_ProgramData Demo.fileExists Demo.path_join
           Demo.mesh Demo.catalog 0 Demo.plate).
  reflexivity.
Defined.

(** C2, as stated, fails on a queue with a command that throws: of the
    three commands pending when the drain begins, [Spawn] and [Fail] are
    called and the [Noop] queued after [Fail] is not. *)
Lemma processQueue_stops_at_throw :
  let log := log_of (processQueue Demo.call Demo.queued_failing) in
  map fn (pendingCommands Demo.queued_failing) =
    [Demo.Spawn; Demo.Fail; Demo.Noop] /\
  map receiver log =
    [Some Demo.session;
     Some (set_pendingCommands Demo.session
             [{| fn := Demo.Noop; args := [AArray [ANumber 7]] |}])] /\
  ~ Forall2 (fun e command => exists r, e = invocation r command)
      log (pendingCommands Demo.queued_failing).
Proof.
  repeat split. intros H. apply Forall2_length in H. discriminate H.
Qed.

(** C8, as stated, fails on a material whose item id is empty while the
    catalogue has an entry under the empty identifier: the material
    resolves to a game material ([getGameMaterialFromGltfMaterial] finds
    the entry) and the constructor leaves it as it is, its name not set
    to the title. *)
Lemma preprocessing_skips_empty_item_id :
  let this : DuMeshTransformer Demo.command_function :=
    this_of (constructor Demo.platform Demo.env_ProgramData Demo.fileExists
               Demo.path_join Demo.anonymous_mesh
               Demo.catalog_with_empty_id) in
  listMaterials (getRoot Demo.anonymous_mesh) !! 0 = Some Demo.anonymous /\
  getGameMaterialFromGltfMaterial this Demo.anonymous =
    Some (Entry Demo.steel) /\
  listMaterials (getRoot (gltfDocument this)) !! 0 = Some Demo.anonymous /\
  getName Demo.anonymous <> Some (title Demo.steel) /\
  getExtras Demo.anonymous !! "item_id" = None.
Proof. repeat split. discriminate. Qed.

(** The drain of [queued_two]: [Spawn] then [Noop] are called; the [Noop]
    that [Spawn] queued is not called and is what is pending afterwards. *)
Example drain_of_queued_two :
  let result := processQueue Demo.call Demo.queued_two in
  log_of result =
    [Invoked Demo.Spawn Demo.session
       [ArgContext {| document := gltfDocument Demo.session;
                      transformer := Demo.session |};
        ArgValue (AArray [])];
     Invoked Demo.Noop
       (set_pendingCommands Demo.session
          [{| fn := Demo.Noop; args := [AArray [ANumber 7]] |}])
       [ArgContext
          {| document := gltfDocument Demo.session;
             transformer :=
               set_pendingCommands Demo.session
                 [{| fn := Demo.Noop; args := [AArray [ANumber 7]] |}] |};
        ArgValue (AArray [ANumber 2])]] /\
  pendingCommands (this_of result) =
    [{| fn := Demo.Noop; args := [AArray [ANumber 7]] |}] /\
  completion_of result = Normal tt.
Proof. vm_compute. repeat split. Qed.

(** The drain of [queued_failing]: [Spawn] and [Fail] are called, the
    [Noop] queued after [Fail] is not, and it is not pending afterwards. *)
Example drain_of_queued_failing :
  let result := processQueue Demo.call Demo.queued_failing in
  map receiver (log_of result) =
    [Some Demo.session;
     Some (set_pendingCommands Demo.session
             [{| fn := Demo.Noop; args := [AArray [ANumber 7]] |}])] /\
  pendingCommands (this_of result) =
    [{| fn := Demo.Noop; args := [AArray [ANumber 7]] |}] /\
  completion_of result = Throw "boom".
Proof. vm_compute. repeat split. Qed.

(** The session built on [mesh]: the first material is renamed and keeps
    its extras, the second is as it was, and one pair is returned. *)
Example session_of_mesh :
  listMaterials (getRoot (gltfDocument Demo.session)) =
    [{| getName := Some "Steel Plate"; getExtras := getExtras Demo.plate |};
     Demo.stray] /\
  getGltfMaterialsWithGameMaterials Demo.session =
    [{| material :=
          {| getName := Some "Steel Plate";
             getExtras := getExtras Demo.plate |};
        gameMaterial := Entry Demo.steel |}].
Proof. vm_compute. repeat split. Qed.

(** ** Further properties of the queue *)

Lemma set_pendingCommands_same {F} (this : DuMeshTransformer F) :
  set_pendingCommands this (pendingCommands this) = this.
Proof. by destruct this. Qed.

(** X1. A chain of [queueTransform] calls calls no command, throws
    nothing, and leaves the session as it was but for the pending queue,
    which grows at its tail by one command per call, in the order of the
    calls, each holding its arguments as one array. *)
Theorem queueTransform_chain_appends {F} (calls : list (F * list any)) :
  forall this : DuMeshTransformer F,
    queueTransform_chain calls this =
    ([],
     set_pendingCommands this
       (pendingCommands this ++
        map (fun c => {| fn := c.1; args := [AArray c.2] |}) calls),
     Normal tt).
Proof.
  unfold queueTransform_chain.
  induction calls as [|c calls IH]; intros this.
  - simpl. unfold ret. by rewrite app_nil_r, set_pendingCommands_same.
  - rewrite for_of_cons.
    change ((run queueTransform c.1 c.2; ret tt) this)
      with (([] : list (event F)),
            set_pendingCommands this
              (pendingCommands this ++ [{| fn := c.1; args := [AArray c.2] |}]),
            Normal tt).
    cbv beta iota. rewrite IH. simpl. unfold set_pendingCommands. simpl.
    by rewrite <- app_assoc.
Qed.

Section Threading.

Context {F : Type}.
Variable call :
  F -> DuMeshTransformer F -> list (argument F) ->
  DuMeshTransformer F * completion any.

Lemma drains_threads this queue log this' r :
  drains call this queue log this' r ->
  (forall e, head log = Some e -> receiver e = Some this) /\
  (forall i e e', log !! i = Some e -> log !! S i = Some e' ->
     receiver e' = left_by call e) /\
  (forall e, last log = Some e -> left_by call e = Some this') /\
  (log = [] -> this' = this).
Proof.
  induction 1 as [this|this command rest this1 v log this' r Hcall Hd IH
                 |this command rest this1 e Hcall].
  - repeat split; try discriminate.
  - destruct IH as (Hhead & Hstep & Hlast & Hnil). repeat split.
    + by intros e [= <-].
    + intros [|i] e e'; simpl.
      * intros [= <-] He'. simpl. rewrite Hcall. simpl.
        apply Hhead. by destruct log.
      * apply Hstep.
    + intros e He. destruct log as [|e0 log].
      * injection He as <-. simpl. rewrite Hcall. simpl.
        by rewrite Hnil.
      * apply Hlast. exact He.
    + discriminate.
  - repeat split.
    + by intros e0 [= <-].
    + intros [|[|i]] e0 e'; simpl; discriminate.
    + intros e0 [= <-]. simpl. by rewrite Hcall.
    + discriminate.
Qed.

(** X2. In a drain every command is called on the session as the command
    called before it left it (the first on the session with its queue
    emptied), and the session after the drain is the one the last command
    called left: [processQueue] itself changes nothing between two calls. *)
Theorem processQueue_threads_session (this : DuMeshTransformer F) :
  let log := log_of (processQueue call this) in
  (forall e, head log = Some e ->
     receiver e = Some (set_pendingCommands this [])) /\
  (forall i e e', log !! i = Some e -> log !! S i = Some e' ->
     receiver e' = left_by call e) /\
  (forall e, last log = Some e ->
     left_by call e = Some (this_of (processQueue call this))) /\
  (log = [] -> this_of (processQueue call this) = set_pendingCommands this []).
Proof.
  simpl. destruct (drains_threads _ _ _ _ _ (processQueue_drains call this))
    as (Hhead & Hstep & Hlast & Hnil).
  auto.
Qed.

(** X3. Two drains in a row, neither with a throwing command, the
    command functions reaching the queue by queueing only: the second
    drain calls exactly the commands that were queued during the first,
    in the order they were queued. *)
Theorem processQueue_next_drain (this : DuMeshTransformer F) :
  commands_only_enqueue call ->
  completion_of (processQueue call this) = Normal tt ->
  completion_of (processQueue call (this_of (processQueue call this))) =
    Normal tt ->
  Forall2 (fun e command => exists r, e = invocation r command)
    (log_of (processQueue call (this_of (processQueue call this))))
    (concat (map (enqueued_by call) (log_of (processQueue call this)))).
Proof.
  intros Hq H1 H2.
  pose proof (processQueue_drains call this) as Hd1.
  pose proof (processQueue_drains call (this_of (processQueue call this)))
    as Hd2.
  rewrite H2 in Hd2. apply drains_normal_calls in Hd2.
  by rewrite (drains_pending _ _ _ _ _ _ Hq Hd1) in Hd2.
Qed.

End Threading.

Lemma processQueue_next_drain_witness :
  commands_only_enqueue Demo.call /\
  completion_of (processQueue Demo.call Demo.queued_two) = Normal tt /\
  completion_of
    (processQueue Demo.call
       (this_of (processQueue Demo.call Demo.queued_two))) = Normal tt /\
  Forall2 (fun e command => exists r, e = invocation r command)
    (log_of (processQueue Demo.call
               (this_of (processQueue Demo.call Demo.queued_two))))
    (concat (map (enqueued_by Demo.call)
               (log_of (processQueue Demo.call Demo.queued_two)))).
Proof.
  split; [exact demo_commands_only_enqueue|].
  split; [reflexivity|]. split; [reflexivity|].
  apply (processQueue_next_drain Demo.call Demo.queued_two
           demo_commands_only_enqueue); reflexivity.
Defined.

(** ** Saving *)

Section Saving.

Context {F : Type}.
Variable call :
  F -> DuMeshTransformer F -> list (argument F) ->
  DuMeshTransformer F * completion any.
Variable fileExists : string -> bool.
Variable path_join : list string -> string.
Variable path_dirname : string -> string.
Variable path_basename : string -> string -> string.
Variable path_extname : string -> string.
Variable fs_mkdir : string -> completion unit.
Variable io_write : string -> Document -> completion unit.

Local Abbreviation save :=
  (saveToFile call fileExists path_join path_dirname path_basename
     path_extname fs_mkdir io_write).

(** X4. [saveToFile(file)] after a drain without a throw: the one thing
    done after the calls of the drain is the writing of
    [<dir>/<basename>.glb], no directory is created, the document written
    is the document as the drain left it, and the completion is the
    writer's, passed on as it is. *)
Theorem saveToFile_binary (file : string) (this : DuMeshTransformer F) :
  completion_of (processQueue call this) = Normal tt ->
  let drained := this_of (processQueue call this) in
  let target :=
    path_join [path_dirname file;
               path_basename file (path_extname file) +:+ ".glb"] in
  save file false this =
  (log_of (processQueue call this) ++ [Written target (gltfDocument drained)],
   drained,
   io_write target (gltfDocument drained)).
Proof.
  intros Hr. simpl. unfold saveToFile, bind at 1.
  destruct (processQueue call this) as [[log this'] [[]|e]]; [|discriminate].
  reflexivity.
Qed.

(** X5. [saveToFile(file, true)] after a drain without a throw: the
    directory [<dir>/<basename>] is created only when it is not there;
    when its creation fails the failure is passed on and nothing is
    written; otherwise [<dir>/<basename>/<basename>.gltf] is written with
    the document as the drain left it. *)
Theorem saveToFile_text (file : string) (this : DuMeshTransformer F) :
  completion_of (processQueue call this) = Normal tt ->
  let drained := this_of (processQueue call this) in
  let log := log_of (processQueue call this) in
  let basename := path_basename file (path_extname file) in
  let finaldir := path_join [path_dirname file; basename] in
  let target := path_join [finaldir; basename +:+ ".gltf"] in
  save file true this =
  if fileExists finaldir
  then (log ++ [Written target (gltfDocument drained)], drained,
        io_write target (gltfDocument drained))
  else
    match fs_mkdir finaldir with
    | Normal _ =>
        (log ++ [Mkdir finaldir; Written target (gltfDocument drained)],
         drained, io_write target (gltfDocument drained))
    | Throw e => (log ++ [Mkdir finaldir], drained, Throw e)
    end.
Proof.
  intros Hr. simpl. unfold saveToFile, bind at 1.
  destruct (processQueue call this) as [[log this'] [[]|e]]; [|discriminate].
  unfold bind, mkdir, write, get_this, ret, log_of, this_of. simpl.
  destruct (fileExists _); simpl; [reflexivity|].
  by destruct (fs_mkdir _) as [[]|e].
Qed.

End Saving.

Lemma saveToFile_binary_witness :
  completion_of (processQueue Demo.call Demo.queued_two) = Normal tt /\
  (let drained := this_of (processQueue Demo.call Demo.queued_two) in
   let target :=
     Demo.path_join
       [Demo.path_dirname "out/mesh.glb";
        Demo.path_basename "out/mesh.glb" (Demo.path_extname "out/mesh.glb")
          +:+ ".glb"] in
   saveToFile Demo.call Demo.fileExists Demo.path_join Demo.path_dirname
     Demo.path_basename Demo.path_extname Demo.fs_mkdir Demo.io_write
     "out/mesh.glb" false Demo.queued_two =
   (log_of (processQueue Demo.call Demo.queued_two)
      ++ [Written target (gltfDocument drained)],
    drained,
    Demo.io_write target (gltfDocument drained))).
Proof.
  split; [reflexivity|].
  apply (saveToFile_binary Demo.call Demo.fileExists Demo.path_join
           Demo.path_dirname Demo.path_basename Demo.path_extname
           Demo.fs_mkdir Demo.io_write "out/mesh.glb" Demo.queued_two).
  reflexivity.
Defined.

Lemma saveToFile_text_witness :
  completion_of (processQueue Demo.call Demo.queued_two) = Normal tt /\
  (let drained := this_of (processQueue Demo.call Demo.queued_two) in
   let log := log_of (processQueue Demo.call Demo.queued_two) in
   let basename :=
     Demo.path_basename "out/mesh.glb" (Demo.path_extname "out/mesh.glb") in
   let finaldir :=
     Demo.path_join [Demo.path_dirname "out/mesh.glb"; basename] in
   let target := Demo.path_join [finaldir; basename +:+ ".gltf"] in
   saveToFile Demo.call Demo.fileExists Demo.path_join Demo.path_dirname
     Demo.path_basename Demo.path_extname Demo.fs_mkdir Demo.io_write
     "out/mesh.glb" true Demo.queued_two =
   if Demo.fileExists finaldir
   then (log ++ [Written target (gltfDocument drained)], drained,
         Demo.io_write target (gltfDocument drained))
   else
     match Demo.fs_mkdir finaldir with
     | Normal _ =>
         (log ++ [Mkdir finaldir; Written target (gltfDocument drained)],
          drained, Demo.io_write target (gltfDocument drained))
     | Throw e => (log ++ [Mkdir finaldir], drained, Throw e)
     end).
Proof.
  split; [reflexivity|].
  apply (saveToFile_text Demo.call Demo.fileExists Demo.path_join
           Demo.path_dirname Demo.path_basename Demo.path_extname
           Demo.fs_mkdir Demo.io_write "out/mesh.glb" Demo.queued_two).
  reflexivity.
Defined.

(** ** Further properties of the constructor and of the resolver *)

(** The pre-processing keeps the item id of a material. *)
Lemma preprocessed_item_id (defs : MaterialDefinitions) (m : Material) :
  getGameItemIdFromGltfMaterial (preprocessed defs m) =
  getGameItemIdFromGltfMaterial m.
Proof.
  unfold preprocessed.
  destruct (getGameItemIdFromGltfMaterial m) as [itemId|] eqn:Hitem;
    [|done].
  destruct (truthy_string itemId) eqn:Hid; [|done].
  destruct (get_item (items defs) itemId); [|done].
  by apply item_id_of_stamped.
Qed.

(** The empty string is not the name of a member of [Object.prototype]. *)
Lemma inherited_truthy (key : string) :
  inherited key = true -> truthy_string key = true.
Proof.
  intros H. apply truthy_string_true. by intros ->.
Qed.

Lemma pairs_omap {F} (this : DuMeshTransformer F) :
  getGltfMaterialsWithGameMaterials this =
  omap
    (fun m =>
       match getGameMaterialFromGltfMaterial this m with
       | Some g => Some {| material := m; gameMaterial := g |}
       | None => None
       end)
    (listMaterials (getRoot (gltfDocument this))).
Proof.
  unfold getGltfMaterialsWithGameMaterials. apply as_pairs_filter_map.
Qed.

Section ConstructorFacts.

Context {F : Type}.
Variable platform : string.
Variable env_ProgramData : option string.
Variable fileExists : string -> bool.
Variable path_join : list string -> string.

Local Abbreviation built doc defs :=
  (constructor (F:=F) platform env_ProgramData fileExists path_join doc defs).


(** X7. The constructor changes neither the item id of a material nor
    the game material it resolves to: the material found after
    construction at a position of the document has the item id, and
    resolves as, the material that was there. *)
Theorem constructor_keeps_item_ids (doc : Document)
    (defs : MaterialDefinitions) (index : nat) (m : Material) :
  listMaterials (getRoot doc) !! index = Some m ->
  let this := this_of (built doc defs) in
  exists m',
    listMaterials (getRoot (gltfDocument this)) !! index = Some m' /\
    getGameItemIdFromGltfMaterial m' = getGameItemIdFromGltfMaterial m /\
    getGameMaterialFromGltfMaterial this m' =
    getGameMaterialFromGltfMaterial this m.
Proof.
  intros Hm. simpl. rewrite constructor_run. unfold this_of. simpl.
  exists (preprocessed defs m). repeat split.
  - by rewrite list_lookup_fmap, Hm.
  - apply preprocessed_item_id.
  - unfold getGameMaterialFromGltfMaterial.
    by rewrite preprocessed_item_id.
Qed.

(** X8. After construction [getGltfMaterialsWithGameMaterials] pairs the
    game materials the raw document would have been paired with, in the
    same order, and the material of every pair with a non-empty item id
    bears the title of its game material as its name and its item id in
    the extra [item_id]. *)
Theorem pairs_after_construction (doc : Document)
    (defs : MaterialDefinitions) :
  let this := this_of (built doc defs) in
  map gameMaterial (getGltfMaterialsWithGameMaterials this) =
    map gameMaterial
      (getGltfMaterialsWithGameMaterials (fresh (F:=F) doc defs)) /\
  Forall
    (fun pair =>
       forall itemId,
         getGameItemIdFromGltfMaterial (material pair) = Some itemId ->
         itemId <> "" ->
         getName (material pair) = title_of (gameMaterial pair) /\
         getExtras (material pair) !! "item_id" = Some itemId)
    (getGltfMaterialsWithGameMaterials this).
Proof.
  simpl. rewrite constructor_run. unfold this_of. simpl.
  rewrite !pairs_omap. simpl.
  unfold getGameMaterialFromGltfMaterial, getGameMaterialFromItemId,
    getMaterialDefinitions. simpl.
  induction (listMaterials (getRoot doc)) as [|m ms [IH1 IH2]].
  - split; [done | constructor].
  - cbn [map]. rewrite !omap_cons, preprocessed_item_id, or_null_id.
    destruct (get_item (items defs)
                (property_key (getGameItemIdFromGltfMaterial m)))
      as [g|] eqn:Hg; [|by split].
    split; [simpl; by rewrite IH1|].
    constructor; [|exact IH2]. simpl.
    rewrite preprocessed_item_id. intros itemId Hitem Hid.
    apply truthy_string_true in Hid. unfold preprocessed.
    rewrite Hitem in *. simpl in Hg.
    rewrite Hid, Hg. simpl. split; [done | apply lookup_insert_eq].
Qed.

(** X11. With an empty catalogue, and no material whose item id is the
    name of a member of [Object.prototype], the constructor leaves the
    document as it is and no material is paired. *)
Theorem empty_catalogue_changes_nothing (doc : Document)
    (defs : MaterialDefinitions) :
  items defs = ∅ ->
  Forall
    (fun m => inherited (property_key (getGameItemIdFromGltfMaterial m)) = false)
    (listMaterials (getRoot doc)) ->
  let this := this_of (built doc defs) in
  gltfDocument this = doc /\
  getGltfMaterialsWithGameMaterials this = [].
Proof.
  intros Hempty Hown. simpl. rewrite constructor_run. unfold this_of. simpl.
  assert (Hmap : map (preprocessed defs) (listMaterials (getRoot doc)) =
                 listMaterials (getRoot doc)).
  { rewrite <- (map_id (listMaterials (getRoot doc))) at 2.
    apply map_ext_Forall. eapply Forall_impl; [exact Hown|].
    intros m Hm. simpl in Hm. unfold preprocessed.
    destruct (getGameItemIdFromGltfMaterial m) as [itemId|]; [|done].
    simpl in Hm. unfold get_item. rewrite Hempty, lookup_empty, Hm.
    by destruct (truthy_string itemId). }
  rewrite pairs_omap. simpl. rewrite Hmap. split.
  - by destruct doc as [[ms]].
  - unfold getGameMaterialFromGltfMaterial, getGameMaterialFromItemId,
      getMaterialDefinitions, get_item. simpl. clear Hmap. rewrite Hempty.
    induction Hown as [|m ms Hm Hown IH]; [done|].
    rewrite omap_cons, lookup_empty, Hm. exact IH.
Qed.

(** X18. A material whose item id is the name of a member of
    [Object.prototype] and not a key of the catalogue resolves to that
    inherited member, and the constructor, reading no [title] on it,
    leaves the material with an undefined name and that item id in
    [item_id]. *)
Theorem inherited_member_renames_material (doc : Document)
    (defs : MaterialDefinitions) (index : nat) (m : Material)
    (itemId : string) :
  listMaterials (getRoot doc) !! index = Some m ->
  getGameItemIdFromGltfMaterial m = Some itemId ->
  items defs !! itemId = None ->
  inherited itemId = true ->
  let this := this_of (built doc defs) in
  getGameMaterialFromGltfMaterial this m = Some (Inherited itemId) /\
  listMaterials (getRoot (gltfDocument this)) !! index =
    Some {| getName := None;
            getExtras := <["item_id" := itemId]> (getExtras m) |}.
Proof.
  intros Hm Hitem Hnone Hin. simpl. rewrite constructor_run.
  unfold this_of. simpl. split.
  - unfold getGameMaterialFromGltfMaterial, getGameMaterialFromItemId,
      getMaterialDefinitions, get_item. simpl.
    by rewrite Hitem, or_null_id; simpl; rewrite Hnone, Hin.
  - rewrite list_lookup_fmap, Hm. simpl. unfold preprocessed, get_item.
    by rewrite Hitem, (inherited_truthy _ Hin), Hnone, Hin.
Qed.

End ConstructorFacts.

(** X9. Once stamped by the constructor, a material keeps its item id
    whatever name it is given later; a material with no [item_id] extra
    takes its item id from its name, so renaming it changes its item id. *)
Theorem stamped_item_id_survives_renaming (defs : MaterialDefinitions)
    (m : Material) (itemId : string) (d : MaterialDefinition)
    (name' : option string) :
  getGameItemIdFromGltfMaterial m = Some itemId ->
  itemId <> "" ->
  items defs !! itemId = Some d ->
  getGameItemIdFromGltfMaterial (setName (preprocessed defs m) name') =
    Some itemId /\
  (getExtras m !! "item_id" = None ->
   getGameItemIdFromGltfMaterial (setName m name') = name').
Proof.
  intros Hitem Hid Hd. apply truthy_string_true in Hid. split.
  - unfold preprocessed, get_item. rewrite Hitem, Hid, Hd.
    unfold setName. simpl. by apply item_id_of_stamped.
  - intros He. unfold getGameItemIdFromGltfMaterial, or_undefined, setName.
    simpl. by rewrite He.
Qed.

(** X10. A non-empty [item_id] extra that is neither a key of the
    catalogue nor the name of a member of [Object.prototype] hides the
    name: the material does not resolve, whatever its name, and the
    constructor leaves it as it is. *)
Theorem unknown_item_id_hides_name {F} (this : DuMeshTransformer F)
    (m : Material) (s : string) :
  getExtras m !! "item_id" = Some s ->
  s <> "" ->
  items (materialDefinitions this) !! s = None ->
  inherited s = false ->
  getGameItemIdFromGltfMaterial m = Some s /\
  getGameMaterialFromGltfMaterial this m = None /\
  preprocessed (materialDefinitions this) m = m.
Proof.
  intros He Hs Hnone Hin. apply truthy_string_true in Hs.
  assert (Hid : getGameItemIdFromGltfMaterial m = Some s).
  { unfold getGameItemIdFromGltfMaterial, or_undefined.
    rewrite He. simpl. by rewrite Hs. }
  repeat split; [done| |].
  - unfold getGameMaterialFromGltfMaterial, getGameMaterialFromItemId,
      getMaterialDefinitions, get_item. rewrite Hid. simpl.
    by rewrite Hnone, Hin.
  - unfold preprocessed, get_item. by rewrite Hid, Hs, Hnone, Hin.
Qed.

(** ** Further properties of the installation directory *)

Section InstallationFacts.

Context {F : Type}.
Variable call :
  F -> DuMeshTransformer F -> list (argument F) ->
  DuMeshTransformer F * completion any.
Variable fileExists : string -> bool.
Variable path_join : list string -> string.
Variable path_dirname : string -> string.
Variable path_basename : string -> string -> string.
Variable path_extname : string -> string.
Variable fs_mkdir : string -> completion unit.
Variable io_write : string -> Document -> completion unit.

Local Abbreviation valid := (installation_valid (F:=F) fileExists path_join).
Local Abbreviation set_directory :=
  (setGameInstallationDirectory (F:=F) fileExists path_join).

(** X12. After [setGameInstallationDirectory] has accepted a non-empty
    directory, [isGameInstallationDirectorySet] is true and
    [getDataDirectory] returns the [Game/data] of that directory; the
    queue, the document and the catalogue are as they were. *)
Theorem installation_round_trip (this : DuMeshTransformer F)
    (directory : string) :
  fileExists (path_join [directory; "Game"; "data"]) = true ->
  directory <> "" ->
  let this' := this_of (set_directory directory this) in
  isGameInstallationDirectorySet this' = true /\
  getDataDirectory path_join this' =
    ([], this', Normal (Some (path_join [directory; "Game"; "data"]))) /\
  pendingCommands this' = pendingCommands this /\
  gltfDocument this' = gltfDocument this /\
  materialDefinitions this' = materialDefinitions this.
Proof.
  intros Hdata Hdir. apply truthy_string_true in Hdir. simpl.
  unfold setGameInstallationDirectory. rewrite Hdata. simpl.
  unfold this_of. simpl.
  unfold getDataDirectory, isGameInstallationDirectorySet, bind, get_this.
  simpl. by rewrite Hdir.
Qed.

(** X13. The empty directory is accepted when the relative [Game/data]
    exists, and the session then still reports that no installation
    directory is set: [isGameInstallationDirectorySet] is false and
    [getDataDirectory] returns [null]. *)
Theorem empty_installation_directory (this : DuMeshTransformer F) :
  fileExists (path_join [""; "Game"; "data"]) = true ->
  let result := set_directory "" this in
  completion_of result = Normal (this_of result) /\
  gameInstallationPath (this_of result) = Some "" /\
  isGameInstallationDirectorySet (this_of result) = false /\
  getDataDirectory path_join (this_of result) =
    ([], this_of result, Normal None).
Proof.
  intros Hdata. simpl. unfold setGameInstallationDirectory.
  rewrite Hdata. by simpl.
Qed.

Lemma drains_keep_installation this queue log this' r :
  commands_keep_installation fileExists path_join call ->
  drains call this queue log this' r ->
  valid this -> valid this'.
Proof.
  intros Hkeep Hd. induction Hd as [this|this command rest this1 v log this' r
                                     Hcall Hd IH
                                   |this command rest this1 e Hcall];
    intros Hv; [done| |].
  - apply IH.
    pose proof (Hkeep (fn command) this (actuals this command) Hv) as H1.
    by rewrite Hcall in H1.
  - pose proof (Hkeep (fn command) this (actuals this command) Hv) as H1.
    by rewrite Hcall in H1.
Qed.

Lemma saveToFile_this (file : string) (saveAsJson : bool)
    (this : DuMeshTransformer F) :
  this_of (saveToFile call fileExists path_join path_dirname path_basename
             path_extname fs_mkdir io_write file saveAsJson this) =
  this_of (processQueue call this).
Proof.
  unfold saveToFile, bind at 1.
  destruct (processQueue call this) as [[log this'] [[]|e]]; [|done].
  destruct saveAsJson; unfold bind, mkdir, write, get_this, ret, this_of;
    simpl; [|done].
  destruct (fileExists _); simpl; [done|].
  by destruct (fs_mkdir _) as [[]|e].
Qed.

(** X14. The installation directory of a session always holds a
    [Game/data], as long as the command functions do not break this: the
    property is kept by [setGameInstallationDirectory] (accepted or
    refused), by queueing, by a drain and by saving; and so the path
    [getDataDirectory] returns, when it returns one, exists. *)
Theorem installation_stays_valid (this : DuMeshTransformer F) :
  commands_keep_installation fileExists path_join call ->
  valid this ->
  (forall directory, valid (this_of (set_directory directory this))) /\
  (forall f args, valid (this_of (queueTransform f args this))) /\
  valid (this_of (processQueue call this)) /\
  (forall file saveAsJson,
     valid (this_of (saveToFile call fileExists path_join path_dirname
                       path_basename path_extname fs_mkdir io_write
                       file saveAsJson this))) /\
  (forall p,
     completion_of (getDataDirectory path_join this) = Normal (Some p) ->
     fileExists p = true).
Proof.
  intros Hkeep Hv.
  assert (Hdrain : valid (this_of (processQueue call this))).
  { eapply drains_keep_installation;
      [exact Hkeep | apply processQueue_drains | exact Hv]. }
  repeat split.
  - intros directory. unfold setGameInstallationDirectory.
    destruct (fileExists (path_join [directory; "Game"; "data"])) eqn:Hdata;
      simpl; [|exact Hv].
    unfold this_of. simpl. by intros d [= <-].
  - intros f args. exact Hv.
  - exact Hdrain.
  - intros file saveAsJson. by rewrite saveToFile_this.
  - intros p. unfold getDataDirectory, isGameInstallationDirectorySet, bind,
      get_this, completion_of. simpl.
    destruct (gameInstallationPath this) as [d|] eqn:Hd; simpl;
      [|discriminate].
    destruct (truthy_string d); simpl; [|discriminate].
    intros [= <-]. by apply Hv.
Qed.

(** X15. Off Windows a freshly built session has no data directory,
    whatever the file system holds.  On Windows, when the default
    directory ([ProgramData], or [C:\ProgramData] when the variable is
    unset or empty, joined with [Dual Universe]) and its [Game/data]
    exist, the freshly built session returns that [Game/data] from
    [getDataDirectory] without [setGameInstallationDirectory] having been
    called by the user. *)
Theorem default_installation_probe (platform : string)
    (env_ProgramData : option string) (doc : Document)
    (defs : MaterialDefinitions) :
  let this :=
    this_of (constructor (F:=F) platform env_ProgramData fileExists
               path_join doc defs) in
  let default :=
    path_join [or_string env_ProgramData "C:\ProgramData";
               "Dual Universe"] in
  (platform <> "win32" ->
   getDataDirectory path_join this = ([], this, Normal None)) /\
  (platform = "win32" ->
   fileExists default = true ->
   fileExists (path_join [default; "Game"; "data"]) = true ->
   default <> "" ->
   getDataDirectory path_join this =
   ([], this, Normal (Some (path_join [default; "Game"; "data"])))) /\
  (env_ProgramData = None \/ env_ProgramData = Some "" ->
   default = path_join ["C:\ProgramData"; "Dual Universe"]).
Proof.
  simpl. rewrite constructor_run. unfold this_of. simpl.
  unfold getDataDirectory, isGameInstallationDirectorySet, bind, get_this,
    probed_installation. simpl. repeat split.
  - intros Hp. by destruct (String.eqb_spec platform "win32").
  - intros -> Hdir Hdata Hne. apply truthy_string_true in Hne.
    simpl. rewrite Hdir, Hdata. simpl. by rewrite Hne.
  - by intros [-> | ->].
Qed.

End InstallationFacts.

(** ** The factories *)

Section FactoryFacts.

Context {F : Type}.
Variable platform : string.
Variable env_ProgramData : option string.
Variable fileExists : string -> bool.
Variable path_join : list string -> string.
Variable bundled_materials : completion MaterialDefinitions.
Variable JSONDocument : Type.
Variable JSON_parse : string -> completion JSONDocument.
Variable io_read : string -> completion Document.
Variable io_readJSON : JSONDocument -> completion Document.
Variable io_readBinary : list Byte.byte -> completion Document.

Local Abbreviation built doc defs :=
  (this_of (constructor (F:=F) platform env_ProgramData fileExists path_join
              doc defs)).
Local Abbreviation from_document :=
  (fromDocument (F:=F) platform env_ProgramData fileExists path_join
     bundled_materials).

Lemma construct_run (doc : Document) (defs : MaterialDefinitions) :
  construct (F:=F) platform env_ProgramData fileExists path_join doc defs =
  Normal (built doc defs).
Proof. unfold construct. by rewrite constructor_run. Qed.

(** X16. [fromDocument] with a catalogue returns the session the
    constructor builds and does not depend on the bundled catalogue, be
    it unreadable; without a catalogue it builds the session on the
    bundled one, and throws exactly when reading the bundled catalogue
    throws, with its error. *)
Theorem fromDocument_catalogue (doc : Document) :
  (forall defs, from_document doc (Some defs) = Normal (built doc defs)) /\
  (forall defs,
     bundled_materials = Normal defs ->
     from_document doc None = Normal (built doc defs)) /\
  (forall e,
     from_document doc None = Throw e <-> bundled_materials = Throw e).
Proof.
  unfold fromDocument, await. repeat split.
  - intros defs. apply construct_run.
  - intros defs ->. apply construct_run.
  - intros H. destruct bundled_materials as [defs|e'] eqn:Hb.
    + by rewrite construct_run in H.
    + by injection H as ->.
  - by intros ->.
Qed.

(** X17. A factory that reads its document ([fromFile], [fromGltfJson],
    [fromGlbBinary]) and is given a catalogue throws exactly when its
    reader does ([JSON.parse] first, for a JSON text), with the reader's
    error; when the reader returns a document, the factory returns the
    session the constructor builds on it. *)
Theorem reading_factories (defs : MaterialDefinitions) :
  (forall file,
     fromFile platform env_ProgramData fileExists path_join
       bundled_materials io_read file (Some defs) =
     match io_read file with
     | Normal doc => Normal (built doc defs)
     | Throw e => Throw e
     end) /\
  (forall binaryData,
     fromGlbBinary platform env_ProgramData fileExists path_join
       bundled_materials io_readBinary binaryData (Some defs) =
     match io_readBinary binaryData with
     | Normal doc => Normal (built doc defs)
     | Throw e => Throw e
     end) /\
  (forall json,
     fromGltfJson platform env_ProgramData fileExists path_join
       bundled_materials JSONDocument JSON_parse io_readJSON json (Some defs) =
     match (match json with
            | inl text => JSON_parse text
            | inr parsed => Normal parsed
            end) with
     | Normal parsed =>
         match io_readJSON parsed with
         | Normal doc => Normal (built doc defs)
         | Throw e => Throw e
         end
     | Throw e => Throw e
     end).
Proof.
  unfold fromFile, fromGlbBinary, fromGltfJson, fromDocument, await.
  repeat split.
  - intros file. destruct (io_read file); [apply construct_run | done].
  - intros b. destruct (io_readBinary b); [apply construct_run | done].
  - intros json.
    destruct (match json with inl _ => _ | inr _ => _ end) as [parsed|e];
      [|done].
    destruct (io_readJSON parsed); [apply construct_run | done].
Qed.

End FactoryFacts.

(** ** The further statements on the concrete sessions *)

Lemma demo_commands_keep_installation :
  commands_keep_installation Demo.fileExists Demo.path_join Demo.call.
Proof. intros f this arguments Hv. by destruct f. Qed.

Lemma constructor_keeps_item_ids_witness :
  listMaterials (getRoot DemoWindows.mesh) !! 1 =
    Some DemoWindows.named_by_id /\
  (let this := DemoWindows.session in
   exists m',
     listMaterials (getRoot (gltfDocument this)) !! 1 = Some m' /\
     getGameItemIdFromGltfMaterial m' =
       getGameItemIdFromGltfMaterial DemoWindows.named_by_id /\
     getGameMaterialFromGltfMaterial this m' =
       getGameMaterialFromGltfMaterial this DemoWindows.named_by_id).
Proof.
  split; [reflexivity|].
  apply (constructor_keeps_item_ids (F:=Demo.command_function)
           DemoWindows.platform DemoWindows.env_ProgramData
           DemoWindows.fileExists DemoWindows.path_join
           DemoWindows.mesh Demo.catalog 1 DemoWindows.named_by_id).
  reflexivity.
Defined.

Lemma stamped_item_id_survives_renaming_witness :
  getGameItemIdFromGltfMaterial DemoWindows.named_by_id = Some "1001" /\
  "1001" <> "" /\
  items Demo.catalog !! "1001" = Some Demo.steel /\
  getGameItemIdFromGltfMaterial
    (setName (preprocessed Demo.catalog DemoWindows.named_by_id)
       (Some "Renamed")) = Some "1001" /\
  (getExtras DemoWindows.named_by_id !! "item_id" = None ->
   getGameItemIdFromGltfMaterial
     (setName DemoWindows.named_by_id (Some "Renamed")) = Some "Renamed").
Proof.
  split; [reflexivity|]. split; [discriminate|]. split; [reflexivity|].
  apply (stamped_item_id_survives_renaming Demo.catalog
           DemoWindows.named_by_id "1001" Demo.steel (Some "Renamed"));
    [reflexivity | discriminate | reflexivity].
Defined.

Lemma unknown_item_id_hides_name_witness :
  getExtras DemoWindows.mislabelled !! "item_id" = Some "9999" /\
  "9999" <> "" /\
  items (materialDefinitions DemoWindows.session) !! "9999" = None /\
  inherited "9999" = false /\
  getGameItemIdFromGltfMaterial DemoWindows.mislabelled = Some "9999" /\
  getGameMaterialFromGltfMaterial DemoWindows.session DemoWindows.mislabelled =
    None /\
  preprocessed (materialDefinitions DemoWindows.session)
    DemoWindows.mislabelled = DemoWindows.mislabelled.
Proof.
  split; [reflexivity|]. split; [discriminate|]. split; [reflexivity|].
  split; [reflexivity|].
  apply (unknown_item_id_hides_name DemoWindows.session
           DemoWindows.mislabelled "9999");
    [reflexivity | discriminate | reflexivity | reflexivity].
Defined.

Lemma empty_catalogue_changes_nothing_witness :
  items DemoWindows.empty_catalog = ∅ /\
  Forall
    (fun m => inherited (property_key (getGameItemIdFromGltfMaterial m)) = false)
    (listMaterials (getRoot Demo.mesh)) /\
  (let this : DuMeshTransformer Demo.command_function :=
     this_of (constructor Demo.platform Demo.env_ProgramData Demo.fileExists
                Demo.path_join Demo.mesh DemoWindows.empty_catalog) in
   gltfDocument this = Demo.mesh /\
   getGltfMaterialsWithGameMaterials this = []).
Proof.
  assert (Hown : Forall
                   (fun m =>
                      inherited
                        (property_key (getGameItemIdFromGltfMaterial m)) =
                      false)
                   (listMaterials (getRoot Demo.mesh)))
    by (repeat constructor).
  split; [reflexivity|]. split; [exact Hown|].
  apply (empty_catalogue_changes_nothing (F:=Demo.command_function)
           Demo.platform Demo.env_ProgramData Demo.fileExists Demo.path_join
           Demo.mesh DemoWindows.empty_catalog); [reflexivity | exact Hown].
Defined.

Lemma inherited_member_renames_material_witness :
  listMaterials (getRoot DemoWindows.to_string_mesh) !! 0 =
    Some DemoWindows.to_string /\
  getGameItemIdFromGltfMaterial DemoWindows.to_string = Some "toString" /\
  items DemoWindows.empty_catalog !! "toString" = None /\
  inherited "toString" = true /\
  (let this : DuMeshTransformer Demo.command_function :=
     this_of (constructor Demo.platform Demo.env_ProgramData Demo.fileExists
                Demo.path_join DemoWindows.to_string_mesh
                DemoWindows.empty_catalog) in
   getGameMaterialFromGltfMaterial this DemoWindows.to_string =
     Some (Inherited "toString") /\
   listMaterials (getRoot (gltfDocument this)) !! 0 =
     Some {| getName := None;
             getExtras :=
               <["item_id" := "toString"]>
                 (getExtras DemoWindows.to_string) |}).
Proof.
  split; [reflexivity|]. split; [reflexivity|]. split; [reflexivity|].
  split; [reflexivity|].
  apply (inherited_member_renames_material (F:=Demo.command_function)
           Demo.platform Demo.env_ProgramData Demo.fileExists Demo.path_join
           DemoWindows.to_string_mesh DemoWindows.empty_catalog 0
           DemoWindows.to_string "toString"); reflexivity.
Defined.

Lemma installation_round_trip_witness :
  Demo.fileExists (Demo.path_join ["/opt/du"; "Game"; "data"]) = true /\
  "/opt/du" <> "" /\
  (let this' :=
     this_of (setGameInstallationDirectory Demo.fileExists Demo.path_join
                "/opt/du" Demo.queued_two) in
   isGameInstallationDirectorySet this' = true /\
   getDataDirectory Demo.path_join this' =
     ([], this', Normal (Some (Demo.path_join ["/opt/du"; "Game"; "data"]))) /\
   pendingCommands this' = pendingCommands Demo.queued_two /\
   gltfDocument this' = gltfDocument Demo.queued_two /\
   materialDefinitions this' = materialDefinitions Demo.queued_two).
Proof.
  split; [reflexivity|]. split; [discriminate|].
  apply (installation_round_trip Demo.fileExists Demo.path_join
           Demo.queued_two "/opt/du"); [reflexivity | discriminate].
Defined.

Lemma empty_installation_directory_witness :
  DemoWindows.fileExists (DemoWindows.path_join [""; "Game"; "data"]) = true /\
  (let result :=
     setGameInstallationDirectory DemoWindows.fileExists
       DemoWindows.path_join "" Demo.session in
   completion_of result = Normal (this_of result) /\
   gameInstallationPath (this_of result) = Some "" /\
   isGameInstallationDirectorySet (this_of result) = false /\
   getDataDirectory DemoWindows.path_join (this_of result) =
     ([], this_of result, Normal None)).
Proof.
  split; [reflexivity|].
  apply (empty_installation_directory DemoWindows.fileExists
           DemoWindows.path_join Demo.session).
  reflexivity.
Defined.

Lemma installation_stays_valid_witness :
  gameInstallationPath Demo.installed = Some "/opt/du" /\
  commands_keep_installation Demo.fileExists Demo.path_join Demo.call /\
  installation_valid Demo.fileExists Demo.path_join Demo.installed /\
  gameInstallationPath (this_of (processQueue Demo.call Demo.installed)) =
    Some "/opt/du" /\
  (forall directory,
     installation_valid Demo.fileExists Demo.path_join
       (this_of (setGameInstallationDirectory Demo.fileExists Demo.path_join
                   directory Demo.installed))) /\
  (forall f args,
     installation_valid Demo.fileExists Demo.path_join
       (this_of (queueTransform f args Demo.installed))) /\
  installation_valid Demo.fileExists Demo.path_join
    (this_of (processQueue Demo.call Demo.installed)) /\
  (forall file saveAsJson,
     installation_valid Demo.fileExists Demo.path_join
       (this_of (saveToFile Demo.call Demo.fileExists Demo.path_join
                   Demo.path_dirname Demo.path_basename Demo.path_extname
                   Demo.fs_mkdir Demo.io_write file saveAsJson
                   Demo.installed))) /\
  (forall p,
     completion_of (getDataDirectory Demo.path_join Demo.installed) =
       Normal (Some p) ->
     Demo.fileExists p = true) /\
  completion_of (getDataDirectory Demo.path_join Demo.installed) =
    Normal (Some "/opt/du/Game/data").
Proof.
  assert (Hv : installation_valid Demo.fileExists Demo.path_join
                 Demo.installed) by (by intros d [= <-]).
  split; [reflexivity|].
  split; [exact demo_commands_keep_installation|].
  split; [exact Hv|]. split; [reflexivity|].
  destruct (installation_stays_valid Demo.call Demo.fileExists Demo.path_join
              Demo.path_dirname Demo.path_basename Demo.path_extname
              Demo.fs_mkdir Demo.io_write Demo.installed
              demo_commands_keep_installation Hv)
    as (Hset & Hqueue & Hdrain & Hsave & Hdata).
  split; [exact Hset|]. split; [exact Hqueue|]. split; [exact Hdrain|].
  split; [exact Hsave|]. split; [exact Hdata | reflexivity].
Defined.
